(** * SkillSwap: the real-time relay and the exchange status route

    A shallow embedding of the WebSocket relay of [server/routes.ts]
    (connection registry, identify and chat frames), of the route
    [PATCH /api/exchanges/:id/status], and of the two implementations of
    the storage interface ([MemStorage] and [DatabaseStorage]), followed by
    the properties of the exchange-messaging subsystem. *)

From Stdlib Require Import ZArith String Ascii List Bool Lia.
From stdpp Require Import base option list gmap fin_maps strings pretty.
From stdpp Require Import sorting.

Set Default Proof Using "Type".

(** ** JavaScript values read from a parsed frame

    The handlers read a handful of properties from an object produced by
    [JSON.parse] and test them with [if (v)], [v || null], [v.toString()]
    and [===].  Only JSON scalars are modelled: an absent property reads as
    [JUndefined]; numbers are the integers the identifiers range over. *)
Module JS.

Inductive jsval : Type :=
| JUndefined
| JNull
| JBool (b : bool)
| JNum (n : Z)
| JStr (s : string).

#[global] Instance jsval_eq_dec : EqDecision jsval.
Proof. solve_decision. Defined.

(** [if (v)]: undefined, null, false, 0 and the empty string are falsy. *)
Definition truthy (v : jsval) : bool :=
  match v with
  | JUndefined | JNull => false
  | JBool b => b
  | JNum n => negb (n =? 0)%Z
  | JStr s => negb (String.eqb s "")
  end.

(** [v.toString()]: a [TypeError] ([None]) on undefined and null. *)
Definition toString (v : jsval) : option string :=
  match v with
  | JUndefined | JNull => None
  | JBool true => Some "true"%string
  | JBool false => Some "false"%string
  | JNum n => Some (pretty n)
  | JStr s => Some s
  end.

(** [a || b] *)
Definition or_else (a b : jsval) : jsval := if truthy a then a else b.

End JS.
Import JS.

(** ** Outcomes of calls that may throw (or promises that may reject) *)

Inductive outcome (A : Type) : Type :=
| Ok (a : A)
| Throw.
Arguments Ok {A} a.
Arguments Throw {A}.

(** ** Records of [shared/schema.ts] *)

(** A row of [exchanges].  [status] is a [text] column; the timestamps are
    nullable. *)
Record Exchange : Type := mkExchange {
  ex_id : Z;
  requesterId : Z;
  providerId : Z;
  requestedSkillId : Z;
  offeredSkillId : Z;
  status : string;
  ex_createdAt : option Z;
  updatedAt : option Z;
}.

(** [InsertMessage] as it exists at run time: the relay passes the
    properties of the frame unvalidated. *)
Record InsertMessage : Type := mkInsertMessage {
  im_senderId : jsval;
  im_receiverId : jsval;
  im_content : jsval;
  im_exchangeId : jsval;
}.

(** A [Message] object: [{ id, ...messageData, read, createdAt }]. *)
Record Message : Type := mkMessage {
  msg_id : Z;
  senderId : jsval;
  receiverId : jsval;
  exchangeId : jsval;
  content : jsval;
  read : bool;
  createdAt : Z;
}.

(** [InsertExchange]: the route validates it with [insertExchangeSchema]
    before the storage sees it, so its fields are numbers. *)
Record InsertExchange : Type := mkInsertExchange {
  ie_requesterId : Z;
  ie_providerId : Z;
  ie_requestedSkillId : Z;
  ie_offeredSkillId : Z;
}.

(** [{ ...exchange, status, updatedAt: new Date() }] *)
Definition with_status (exchange : Exchange) (st : string) (now : Z) : Exchange :=
  {| ex_id := ex_id exchange;
     requesterId := requesterId exchange;
     providerId := providerId exchange;
     requestedSkillId := requestedSkillId exchange;
     offeredSkillId := offeredSkillId exchange;
     status := st;
     ex_createdAt := ex_createdAt exchange;
     updatedAt := Some now |}.

(** [{ ...message, read: true }] *)
Definition with_read (message : Message) : Message :=
  {| msg_id := msg_id message;
     senderId := senderId message;
     receiverId := receiverId message;
     exchangeId := exchangeId message;
     content := content message;
     read := true;
     createdAt := createdAt message |}.

(** [array.sort((a, b) => key(a) - key(b))].  The sort of an array is
    stable, so its result is the one of the insertion sort that puts an
    element before the first later element whose key is not smaller. *)
Fixpoint insert_by {A : Type} (key : A → Z) (x : A) (sorted : list A) : list A :=
  match sorted with
  | [] => [x]
  | y :: rest =>
      if (key x <=? key y)%Z then x :: y :: rest
      else y :: insert_by key x rest
  end.

Definition sort_by {A : Type} (key : A → Z) (l : list A) : list A :=
  foldr (insert_by key) [] l.

(** ** The storage interface ([IStorage])

    The exchange and message operations the relay and the status route
    call.  Every call is given the state of the store and the instant
    [now] that [new Date()] (or the column default [defaultNow()]) reads,
    and returns the value the promise resolves to, or [Throw] when it
    rejects, with the state of the store afterwards.  [exchangeRows] and
    [messageRows] are the persisted records, the observation the
    properties are stated on. *)
Class IStorage (S : Type) : Type := {
  getExchangeById : Z → S → outcome (option Exchange);
  createExchange : InsertExchange → Z → S → outcome Exchange * S;
  updateExchangeStatus : Z → string → Z → S → outcome (option Exchange) * S;
  createMessage : InsertMessage → Z → S → outcome Message * S;
  exchangeRows : S → list Exchange;
  messageRows : S → list Message;
}.

(** The other exchange and message operations of [IStorage]: the queries
    and [markMessageAsRead]. *)
Class IStorageQueries (S : Type) : Type := {
  getExchangesByUserId : Z → S → outcome (list Exchange);
  getExchangesByStatus : string → S → outcome (list Exchange);
  getMessageById : Z → S → outcome (option Message);
  getMessagesByExchangeId : Z → S → outcome (list Message);
  getMessagesBetweenUsers : Z → Z → S → outcome (list Message);
  getUnreadMessagesByUserId : Z → S → outcome (list Message);
  markMessageAsRead : Z → S → outcome (option Message) * S;
}.

(** ** [MemStorage]: the maps of exchanges and messages and their counters *)
Module MemStorage.

Record t : Type := mk {
  exchanges : gmap Z Exchange;
  messages : gmap Z Message;
  exchangeIdCounter : Z;
  messageIdCounter : Z;
}.

(** the constructor *)
Definition new : t :=
  {| exchanges := ∅; messages := ∅;
     exchangeIdCounter := 1; messageIdCounter := 1 |}.

Definition getExchangeById (id : Z) (this : t) : option Exchange :=
  exchanges this !! id.

Definition createExchange (exchangeData : InsertExchange) (now : Z) (this : t)
  : Exchange * t :=
  let id := exchangeIdCounter this in
  let exchange :=
    {| ex_id := id;
       requesterId := ie_requesterId exchangeData;
       providerId := ie_providerId exchangeData;
       requestedSkillId := ie_requestedSkillId exchangeData;
       offeredSkillId := ie_offeredSkillId exchangeData;
       status := "pending";
       ex_createdAt := Some now;
       updatedAt := Some now |} in
  (exchange,
   {| exchanges := <[id := exchange]> (exchanges this);
      messages := messages this;
      exchangeIdCounter := (id + 1)%Z;
      messageIdCounter := messageIdCounter this |}).

Definition updateExchangeStatus (id : Z) (st : string) (now : Z) (this : t)
  : option Exchange * t :=
  match getExchangeById id this with
  | None => (None, this)
  | Some exchange =>
      let updatedExchange := with_status exchange st now in
      (Some updatedExchange,
       {| exchanges := <[id := updatedExchange]> (exchanges this);
          messages := messages this;
          exchangeIdCounter := exchangeIdCounter this;
          messageIdCounter := messageIdCounter this |})
  end.

Definition createMessage (messageData : InsertMessage) (now : Z) (this : t)
  : Message * t :=
  let id := messageIdCounter this in
  let message :=
    {| msg_id := id;
       senderId := im_senderId messageData;
       receiverId := im_receiverId messageData;
       exchangeId := im_exchangeId messageData;
       content := im_content messageData;
       read := false;
       createdAt := now |} in
  (message,
   {| exchanges := exchanges this;
      messages := <[id := message]> (messages this);
      exchangeIdCounter := exchangeIdCounter this;
      messageIdCounter := (id + 1)%Z |}).

(** [Array.from(this.exchanges.values())], [Array.from(this.messages.values())] *)
Definition getExchanges (this : t) : list Exchange :=
  (map_to_list (exchanges this)).*2.
Definition getMessages (this : t) : list Message :=
  (map_to_list (messages this)).*2.

(** The counters are ahead of every key in use; it holds of [new] and
    every operation keeps it. *)
Definition counters_fresh (this : t) : Prop :=
  (∀ id, is_Some (exchanges this !! id) → (id < exchangeIdCounter this)%Z) ∧
  (∀ id, is_Some (messages this !! id) → (id < messageIdCounter this)%Z).

(** [MemStorage implements IStorage]; its promises never reject. *)
#[global] Instance storage : IStorage t :=
  Build_IStorage t
    (λ id this, Ok (getExchangeById id this))
    (λ d now this, let r := createExchange d now this in (Ok r.1, r.2))
    (λ id st now this,
       let r := updateExchangeStatus id st now this in (Ok r.1, r.2))
    (λ d now this, let r := createMessage d now this in (Ok r.1, r.2))
    getExchanges
    getMessages.

(** [Array.from(map.values())].  A [Map] iterates in the order of
    insertion; the keys are drawn from a counter that only grows and an
    update keeps the place of its key, so that is the order of the
    identifiers. *)
Definition values {A : Type} (m : gmap Z A) : list A :=
  (sort_by fst (map_to_list m)).*2.

Definition getExchangesByUserId (userId : Z) (this : t) : list Exchange :=
  filter (λ exchange, requesterId exchange = userId ∨ providerId exchange = userId)
    (values (exchanges this)).

Definition getExchangesByStatus (st : string) (this : t) : list Exchange :=
  filter (λ exchange, status exchange = st) (values (exchanges this)).

Definition getMessageById (id : Z) (this : t) : option Message :=
  messages this !! id.

Definition getMessagesByExchangeId (id : Z) (this : t) : list Message :=
  sort_by createdAt
    (filter (λ message, exchangeId message = JNum id) (values (messages this))).

Definition getMessagesBetweenUsers (sender receiver : Z) (this : t) : list Message :=
  sort_by createdAt
    (filter (λ message,
               (senderId message = JNum sender ∧ receiverId message = JNum receiver) ∨
               (senderId message = JNum receiver ∧ receiverId message = JNum sender))
       (values (messages this))).

Definition getUnreadMessagesByUserId (userId : Z) (this : t) : list Message :=
  filter (λ message, receiverId message = JNum userId ∧ read message = false)
    (values (messages this)).

Definition markMessageAsRead (id : Z) (this : t) : option Message * t :=
  match getMessageById id this with
  | None => (None, this)
  | Some message =>
      let updatedMessage := with_read message in
      (Some updatedMessage,
       {| exchanges := exchanges this;
          messages := <[id := updatedMessage]> (messages this);
          exchangeIdCounter := exchangeIdCounter this;
          messageIdCounter := messageIdCounter this |})
  end.

(** Every record is kept under its own identifier; it holds of [new] and
    every operation keeps it. *)
Definition ids_are_keys (this : t) : Prop :=
  (∀ id exchange, exchanges this !! id = Some exchange → ex_id exchange = id) ∧
  (∀ id message, messages this !! id = Some message → msg_id message = id).

#[global] Instance queries : IStorageQueries t :=
  Build_IStorageQueries t
    (λ userId this, Ok (getExchangesByUserId userId this))
    (λ st this, Ok (getExchangesByStatus st this))
    (λ id this, Ok (getMessageById id this))
    (λ id this, Ok (getMessagesByExchangeId id this))
    (λ sender receiver this, Ok (getMessagesBetweenUsers sender receiver this))
    (λ userId this, Ok (getUnreadMessagesByUserId userId this))
    (λ id this, let r := markMessageAsRead id this in (Ok r.1, r.2)).

End MemStorage.

(** ** The SQL client [db]

    [DatabaseStorage] runs its statements on [db] (drizzle over a Postgres
    pool), exported by [server/db.ts], which is not among the sources.
    The statements [DatabaseStorage] builds are modelled on the tables
    that [shared/schema.ts] declares. *)
Module Db.

(** Modelled from the spec: the durable store behind [db], missing with
    [server/db.ts].  A table is kept as the list of its rows, a new row
    last and an updated row in its place (the list is how the model keeps
    the rows apart, not an order the store promises), a [serial] column
    draws from a sequence, and the store may be out of reach, in which
    case every statement fails. *)
Record t : Type := mk {
  exchanges : list Exchange;
  exchanges_id_seq : Z;
  messages : list Message;
  messages_id_seq : Z;
  reachable : bool;
}.

(** Modelled from the spec: the store before anything was written
    to it. *)
Definition empty : t :=
  {| exchanges := []; exchanges_id_seq := 1;
     messages := []; messages_id_seq := 1; reachable := true |}.

(** Modelled from the spec: the numbers a column [integer(..)] of the
    missing [db] holds, those of the 32-bit signed integers of Postgres;
    a number outside them is refused and the statement fails. *)
Definition int4 (n : Z) : bool :=
  (-2147483648 <=? n)%Z && (n <=? 2147483647)%Z.

(** Modelled from the spec: the strings a column [text(..)] of the
    missing [db] holds.  A string stands for a text by the bytes of its
    encoding; every text is held as it is but one with the character of
    code 0, which Postgres refuses. *)
Fixpoint without_nul (s : string) : bool :=
  match s with
  | EmptyString => true
  | String c s' => negb (Ascii.eqb c "000"%char) && without_nul s'
  end.

(** Modelled from the spec: what a column [integer(..).notNull()] of the
    missing [db] stores of a value of the column's type, a number within
    [int4].  The values that reach it here are those of a frame of the
    documented shape; what the driver makes of a value of another type
    (it reads a string of digits as a number) is not followed, such a
    value is refused. *)
Definition integer_notNull (v : jsval) : option jsval :=
  match v with
  | JNum n => if int4 n then Some (JNum n) else None
  | _ => None
  end.

(** Modelled from the spec: what a column [integer(..)] of the missing
    [db] stores, a number within [int4] or null (undefined is stored as
    null). *)
Definition integer_nullable (v : jsval) : option jsval :=
  match v with
  | JNum n => if int4 n then Some (JNum n) else None
  | JNull | JUndefined => Some JNull
  | _ => None
  end.

(** Modelled from the spec: what a column [text(..).notNull()] of the
    missing [db] stores of a value of the column's type, a string
    [without_nul], the empty one included.  What the driver makes of a
    value of another type (it writes a number as its digits) is not
    followed, such a value is refused. *)
Definition text_notNull (v : jsval) : option jsval :=
  match v with
  | JStr s => if without_nul s then Some (JStr s) else None
  | _ => None
  end.

(** Modelled from the spec: [db.select().from(exchanges).where(..)] of
    the missing [db], the rows that satisfy the condition.  The statement
    has no [ORDER BY]: which rows come back is modelled, the order in
    which they come is not, and the list is read as a bag (the properties
    speak of membership and of permutations, and of [result[0]] only
    where one row at most satisfies the condition). *)
Definition select_exchanges (where_ : Exchange → bool) (this : t)
  : outcome (list Exchange) :=
  if reachable this
  then Ok (filter (λ row, where_ row = true) (exchanges this))
  else Throw.

(** Modelled from the spec: [db.insert(exchanges).values(..).returning()]
    of the missing [db].  The four identifiers are checked against their
    [integer] columns, [created_at] defaults to now and [updated_at] to
    null; the new row is returned.  The place of the row in the list is
    bookkeeping of the model, not an order that a later [SELECT] keeps. *)
Definition insert_exchange (values : InsertExchange) (st : string) (now : Z)
    (this : t) : outcome Exchange * t :=
  if reachable this then
    if int4 (ie_requesterId values) && int4 (ie_providerId values)
       && int4 (ie_requestedSkillId values) && int4 (ie_offeredSkillId values)
    then
      let exchange :=
        {| ex_id := exchanges_id_seq this;
           requesterId := ie_requesterId values;
           providerId := ie_providerId values;
           requestedSkillId := ie_requestedSkillId values;
           offeredSkillId := ie_offeredSkillId values;
           status := st;
           ex_createdAt := Some now;
           updatedAt := None |} in
      (Ok exchange,
       {| exchanges := exchanges this ++ [exchange];
          exchanges_id_seq := (exchanges_id_seq this + 1)%Z;
          messages := messages this;
          messages_id_seq := messages_id_seq this;
          reachable := reachable this |})
    else (Throw, this)
  else (Throw, this).

(** Modelled from the spec:
    [db.update(exchanges).set(..).where(..).returning()] of the missing
    [db].  The rows that satisfy the condition are replaced by what [set]
    makes of them, and returned. *)
Definition update_exchanges (set : Exchange → Exchange) (where_ : Exchange → bool)
    (this : t) : outcome (list Exchange) * t :=
  if reachable this then
    (Ok (set <$> filter (λ row, where_ row = true) (exchanges this)),
     {| exchanges := (λ row, if where_ row then set row else row) <$> exchanges this;
        exchanges_id_seq := exchanges_id_seq this;
        messages := messages this;
        messages_id_seq := messages_id_seq this;
        reachable := reachable this |})
  else (Throw, this).

(** Modelled from the spec: [db.insert(messages).values(..).returning()]
    of the missing [db].  The values are checked against their columns,
    [created_at] defaults to now; the new row is returned. *)
Definition insert_message (values : InsertMessage) (read_ : bool) (now : Z)
    (this : t) : outcome Message * t :=
  if reachable this then
    match integer_notNull (im_senderId values),
          integer_notNull (im_receiverId values),
          integer_nullable (im_exchangeId values),
          text_notNull (im_content values) with
    | Some sender, Some receiver, Some exchange, Some text =>
        let message :=
          {| msg_id := messages_id_seq this;
             senderId := sender;
             receiverId := receiver;
             exchangeId := exchange;
             content := text;
             read := read_;
             createdAt := now |} in
        (Ok message,
         {| exchanges := exchanges this;
            exchanges_id_seq := exchanges_id_seq this;
            messages := messages this ++ [message];
            messages_id_seq := (messages_id_seq this + 1)%Z;
            reachable := reachable this |})
    | _, _, _, _ => (Throw, this)
    end
  else (Throw, this).

(** Modelled from the spec:
    [db.select().from(messages).where(..).orderBy(..)] of the missing
    [db], the rows that satisfy the condition, in the order of the key
    when there is one (rows of equal key in the order of the table). *)
Definition select_messages (where_ : Message → bool) (orderBy : option (Message → Z))
    (this : t) : outcome (list Message) :=
  if reachable this then
    let rows := filter (λ row, where_ row = true) (messages this) in
    Ok (match orderBy with
        | Some key => sort_by key rows
        | None => rows
        end)
  else Throw.

(** Modelled from the spec:
    [db.update(messages).set(..).where(..).returning()] of the missing
    [db].  The rows that satisfy the condition are replaced by what [set]
    makes of them, and returned. *)
Definition update_messages (set : Message → Message) (where_ : Message → bool)
    (this : t) : outcome (list Message) * t :=
  if reachable this then
    (Ok (set <$> filter (λ row, where_ row = true) (messages this)),
     {| exchanges := exchanges this;
        exchanges_id_seq := exchanges_id_seq this;
        messages := (λ row, if where_ row then set row else row) <$> messages this;
        messages_id_seq := messages_id_seq this;
        reachable := reachable this |})
  else (Throw, this).

(** Modelled from the spec: the identifiers of the missing [db] are
    primary keys drawn from their sequences: no two rows of a table share
    one, and the sequence is ahead of all of them. *)
Definition keys_fresh (this : t) : Prop :=
  NoDup (ex_id <$> exchanges this) ∧
  Forall (λ row, (ex_id row < exchanges_id_seq this)%Z) (exchanges this) ∧
  NoDup (msg_id <$> messages this) ∧
  Forall (λ row, (msg_id row < messages_id_seq this)%Z) (messages this).

End Db.

(** ** [DatabaseStorage]: the same operations as statements on [db] *)
Module DatabaseStorage.

Definition t : Type := Db.t.

(** The constructor (the session store and the seeding of the categories
    are left out). *)
Definition new : t := Db.empty.

(** [eq(exchanges.id, id)] *)
Definition eq_id (id : Z) (row : Exchange) : bool := (ex_id row =? id)%Z.

(** [const result = await db.select().from(exchanges)
    .where(eq(exchanges.id, id)); return result[0];] *)
Definition getExchangeById (id : Z) (this : t) : outcome (option Exchange) :=
  match Db.select_exchanges (eq_id id) this with
  | Ok result => Ok (head result)
  | Throw => Throw
  end.

(** [db.insert(exchanges).values({ ...exchangeData, status: 'pending' })
    .returning()] *)
Definition createExchange (exchangeData : InsertExchange) (now : Z) (this : t)
  : outcome Exchange * t :=
  Db.insert_exchange exchangeData "pending" now this.

(** [const [updatedExchange] = await db.update(exchanges)
    .set({ status, updatedAt: new Date() }).where(eq(exchanges.id, id))
    .returning(); return updatedExchange;] *)
Definition updateExchangeStatus (id : Z) (st : string) (now : Z) (this : t)
  : outcome (option Exchange) * t :=
  match Db.update_exchanges (λ row, with_status row st now) (eq_id id) this with
  | (Ok returned, this') => (Ok (head returned), this')
  | (Throw, this') => (Throw, this')
  end.

(** [db.insert(messages).values({ ...messageData, read: false })
    .returning()] *)
Definition createMessage (messageData : InsertMessage) (now : Z) (this : t)
  : outcome Message * t :=
  Db.insert_message messageData false now this.

(** [DatabaseStorage implements IStorage] *)
#[global] Instance storage : IStorage t :=
  Build_IStorage t
    getExchangeById createExchange updateExchangeStatus createMessage
    Db.exchanges Db.messages.

(** [db.select().from(exchanges).where(or(eq(exchanges.requesterId, userId),
    eq(exchanges.providerId, userId)))] *)
Definition getExchangesByUserId (userId : Z) (this : t) : outcome (list Exchange) :=
  Db.select_exchanges
    (λ row, (requesterId row =? userId)%Z || (providerId row =? userId)%Z) this.

(** [db.select().from(exchanges).where(eq(exchanges.status, status))] *)
Definition getExchangesByStatus (st : string) (this : t) : outcome (list Exchange) :=
  Db.select_exchanges (λ row, String.eqb (status row) st) this.

(** [eq(messages.id, id)] *)
Definition eq_msg_id (id : Z) (row : Message) : bool := (msg_id row =? id)%Z.

(** [const result = await db.select().from(messages)
    .where(eq(messages.id, id)); return result[0];] *)
Definition getMessageById (id : Z) (this : t) : outcome (option Message) :=
  match Db.select_messages (eq_msg_id id) None this with
  | Ok result => Ok (head result)
  | Throw => Throw
  end.

(** [db.select().from(messages).where(eq(messages.exchangeId, exchangeId))
    .orderBy(messages.createdAt)] *)
Definition getMessagesByExchangeId (id : Z) (this : t) : outcome (list Message) :=
  Db.select_messages (λ row, bool_decide (exchangeId row = JNum id))
    (Some createdAt) this.

(** [where(or(and(eq(senderId, senderId), eq(receiverId, receiverId)),
    and(eq(senderId, receiverId), eq(receiverId, senderId))))
    .orderBy(messages.createdAt)] *)
Definition getMessagesBetweenUsers (sender receiver : Z) (this : t)
  : outcome (list Message) :=
  Db.select_messages
    (λ row,
       (bool_decide (senderId row = JNum sender)
        && bool_decide (receiverId row = JNum receiver))
       || (bool_decide (senderId row = JNum receiver)
           && bool_decide (receiverId row = JNum sender)))
    (Some createdAt) this.

(** [where(and(eq(messages.receiverId, userId), eq(messages.read, false)))
    .orderBy(messages.createdAt)] *)
Definition getUnreadMessagesByUserId (userId : Z) (this : t)
  : outcome (list Message) :=
  Db.select_messages
    (λ row, bool_decide (receiverId row = JNum userId) && negb (read row))
    (Some createdAt) this.

(** [const [updatedMessage] = await db.update(messages).set({ read: true })
    .where(eq(messages.id, id)).returning(); return updatedMessage;] *)
Definition markMessageAsRead (id : Z) (this : t) : outcome (option Message) * t :=
  match Db.update_messages with_read (eq_msg_id id) this with
  | (Ok returned, this') => (Ok (head returned), this')
  | (Throw, this') => (Throw, this')
  end.

#[global] Instance queries : IStorageQueries t :=
  Build_IStorageQueries t
    getExchangesByUserId getExchangesByStatus getMessageById
    getMessagesByExchangeId getMessagesBetweenUsers
    getUnreadMessagesByUserId markMessageAsRead.

End DatabaseStorage.

(** ** Frames of the relay *)

(** The properties the handler reads from a parsed frame. *)
Module Frame.
Record t : Type := mk {
  type : jsval;
  userId : jsval;
  senderId : jsval;
  receiverId : jsval;
  content : jsval;
  exchangeId : jsval;
}.
End Frame.

(** What [JSON.parse] returns: the value [null], on which reading a
    property throws, or any other value, from which the handler reads
    the properties above. *)
Inductive json : Type :=
| Null
| Value (properties : Frame.t).

(** The text of an inbound frame: not JSON, or the JSON of a value. *)
Inductive payload : Type :=
| Unparseable
| Text (j : json).

(** A connection handle (the [ws] object), by identity. *)
Definition conn : Type := nat.

(** Frames the server sends: [{type:"system", message, messageId?}],
    [{type:"message", message}] and [{type:"error", message}]. *)
Inductive server_frame : Type :=
| System (message : string) (messageId : option Z)
| Push (message : Message)
| Error (message : string).

(** ** The relay: [wss.on("connection", ...)] *)
Module Relay.
Section WithStorage.

Context {S : Type} {storage : IStorage S}.

(** What a handler of one connection works on: its own variable
    [clientId], the shared map [clients], the store, and the frames
    sent so far, with the handle they were sent on. *)
Record state : Type := mkState {
  clientId : string;
  clients : gmap string conn;
  store : S;
  sent : list (conn * server_frame);
}.

(** A computation that may throw part-way; what it did before stays. *)
Definition handler (A : Type) : Type := state → outcome A * state.

Definition ret {A} (a : A) : handler A := λ st, (Ok a, st).
Definition bind {A B} (m : handler A) (k : A → handler B) : handler B :=
  λ st, match m st with
        | (Ok a, st') => k a st'
        | (Throw, st') => (Throw, st')
        end.
Definition lift {A} (o : outcome A) : handler A := λ st, (o, st).
Definition try_catch (body : handler unit) (catch : handler unit) : handler unit :=
  λ st, match body st with
        | (Ok tt, st') => (Ok tt, st')
        | (Throw, st') => catch st'
        end.

Notation "'let*' x ':=' e 'in' k" := (bind e (λ x, k))
  (at level 10, x name, e at level 100, k at level 200).

Definition get_clientId : handler string := λ st, (Ok (clientId st), st).
Definition set_clientId (s : string) : handler unit :=
  λ st, (Ok tt, mkState s (clients st) (store st) (sent st)).
Definition clients_get (k : string) : handler (option conn) :=
  λ st, (Ok (clients st !! k), st).
Definition clients_set (k : string) (ws : conn) : handler unit :=
  λ st, (Ok tt, mkState (clientId st) (<[k := ws]> (clients st)) (store st) (sent st)).
Definition clients_delete (k : string) : handler unit :=
  λ st, (Ok tt, mkState (clientId st) (delete k (clients st)) (store st) (sent st)).
Definition send (ws : conn) (f : server_frame) : handler unit :=
  λ st, (Ok tt, mkState (clientId st) (clients st) (store st) (sent st ++ [(ws, f)])).
Definition await_createMessage (d : InsertMessage) (now : Z) : handler Message :=
  λ st, let r := createMessage d now (store st) in
        (r.1, mkState (clientId st) (clients st) r.2 (sent st)).

Definition JSON_parse (message : payload) : outcome json :=
  match message with
  | Unparseable => Throw
  | Text j => Ok j
  end.

(** Reading a property of the parsed value. *)
Definition properties_of (j : json) : outcome Frame.t :=
  match j with
  | Null => Throw
  | Value o => Ok o
  end.

Definition call_toString (v : jsval) : outcome string :=
  match toString v with
  | Some s => Ok s
  | None => Throw
  end.

(** [ws.on("message", async (message) => { try { ... } catch { ... } })] *)
Definition on_message (ws : conn) (message : payload) (now : Z) : handler unit :=
  try_catch
    (let* parsedMessage := lift (JSON_parse message) in
     let* o := lift (properties_of parsedMessage) in
     if decide (Frame.type o = JStr "identify") then
       let userId := Frame.userId o in
       if truthy userId then
         let* old := get_clientId in
         let* _ := (if decide (old ≠ "unknown"%string)
                    then clients_delete old else ret tt) in
         let* s := lift (call_toString userId) in
         let* _ := set_clientId s in
         let* _ := clients_set s ws in
         send ws (System "Identification successful" None)
       else ret tt
     else if decide (Frame.type o = JStr "chat") then
       let senderId := Frame.senderId o in
       let receiverId := Frame.receiverId o in
       let content := Frame.content o in
       let exchangeId := Frame.exchangeId o in
       let* me := get_clientId in
       let* matches :=
         (if truthy senderId
          then let* s := lift (call_toString senderId) in
               ret (bool_decide (s = me))
          else ret false) in
       if matches : bool then
         let* newMessage :=
           await_createMessage
             {| im_senderId := senderId;
                im_receiverId := receiverId;
                im_content := content;
                im_exchangeId := or_else exchangeId JNull |} now in
         let* _ := send ws (System "Message sent successfully"
                                   (Some (msg_id newMessage))) in
         let* key := lift (call_toString receiverId) in
         let* receiver := clients_get key in
         match receiver with
         | Some r => send r (Push newMessage)
         | None => ret tt
         end
       else send ws (Error "Sender ID doesn't match your identity")
     else ret tt)
    (send ws (Error "Failed to process message")).

(** The state once the frames [fs] have been sent as well. *)
Definition sent_more (st : state) (fs : list (conn * server_frame)) : state :=
  mkState (clientId st) (clients st) (store st) (sent st ++ fs).

(** [ws.on("close", ...)]: [clients.delete(clientId)] *)
Definition on_close : handler unit :=
  let* me := get_clientId in clients_delete me.

(** *** The server: every open connection with its [clientId], the map
    [clients] and the store

    The events are the callbacks of [wss.on("connection")],
    [ws.on("message")] and [ws.on("close")].  An event is run to
    completion before the next one (what other connections do while a
    handler waits for the store is not modelled) and returns the frames
    it sent.  Handles are fresh: an event for a handle that is not open
    does nothing. *)
Record server : Type := mkServer {
  connections : gmap conn string;
  registry : gmap string conn;
  storage_state : S;
}.

Inductive event : Type :=
| Connect (ws : conn)
| Receive (ws : conn) (message : payload) (now : Z)
| Close (ws : conn).

Definition welcome : server_frame :=
  System "Connected to SkillSwap WebSocket server" None.

Definition step (e : event) (sv : server) : server * list (conn * server_frame) :=
  match e with
  | Connect ws =>
      (mkServer (<[ws := "unknown"%string]> (connections sv))
                (registry sv) (storage_state sv),
       [(ws, welcome)])
  | Receive ws message now =>
      match connections sv !! ws with
      | None => (sv, [])
      | Some me =>
          let st := (on_message ws message now
                       (mkState me (registry sv) (storage_state sv) [])).2 in
          (mkServer (<[ws := clientId st]> (connections sv))
                    (clients st) (store st),
           sent st)
      end
  | Close ws =>
      match connections sv !! ws with
      | None => (sv, [])
      | Some me =>
          let st := (on_close (mkState me (registry sv) (storage_state sv) [])).2 in
          (mkServer (delete ws (connections sv)) (clients st) (store st),
           sent st)
      end
  end.

(** Running a sequence of events; the frames sent, in order. *)
Fixpoint run (es : list event) (sv : server) : server * list (conn * server_frame) :=
  match es with
  | [] => (sv, [])
  | e :: es' =>
      let r := step e sv in
      let r' := run es' r.1 in
      (r'.1, r.2 ++ r'.2)
  end.

Definition start (s : S) : server := mkServer ∅ ∅ s.

End WithStorage.
Arguments state : clear implicits.
Arguments server : clear implicits.
End Relay.

(** ** The route [PATCH /api/exchanges/:id/status] *)
Module Routes.
Section WithStorage.

Context {S : Type} {storage : IStorage S}.

(** What the handler reads of the request: the session's user
    ([req.isAuthenticated()] is whether there is one, [req.user.id] its
    identifier), [Number(req.params.id)] and [req.body.status]. *)
Record request : Type := mkRequest {
  user : option Z;
  params_id : Z;
  body_status : jsval;
}.

(** The JSON body of a response: [{ message }], the exchange returned
    by the storage, or [{ message, error }] of the catch block. *)
Inductive body : Type :=
| BMessage (message : string)
| BExchange (updatedExchange : option Exchange)
| BFailure (message : string).

(** [res.status(code).json(body)]; [res.json(body)] answers 200. *)
Record response : Type := mkResponse {
  code : Z;
  json_body : body;
}.

Definition valid_statuses : list string :=
  ["pending"; "accepted"; "declined"; "completed"]%string.

(** [["pending", "accepted", "declined", "completed"].includes(status)]:
    the string, when [status] is one of the four. *)
Definition includes (st : jsval) : option string :=
  match st with
  | JStr s => if bool_decide (s ∈ valid_statuses) then Some s else None
  | _ => None
  end.

(** [app.patch("/api/exchanges/:id/status", async (req, res) => ...)] *)
Definition patch_exchange_status (req : request) (now : Z) (s : S)
  : response * S :=
  match user req with
  | None => (mkResponse 401 (BMessage "Unauthorized"), s)
  | Some user_id =>
      match getExchangeById (params_id req) s with
      | Throw =>
          (mkResponse 400 (BFailure "Failed to update exchange status"), s)
      | Ok None => (mkResponse 404 (BMessage "Exchange not found"), s)
      | Ok (Some exchange) =>
          match includes (body_status req) with
          | None => (mkResponse 400 (BMessage "Invalid status"), s)
          | Some st =>
              if bool_decide (st = "accepted" ∨ st = "declined")%string
                 && negb (providerId exchange =? user_id)%Z
              then (mkResponse 403
                      (BMessage "Only the provider can accept or decline exchanges"), s)
              else if bool_decide (st = "completed"%string)
                      && negb (requesterId exchange =? user_id)%Z
                      && negb (providerId exchange =? user_id)%Z
              then (mkResponse 403
                      (BMessage "Only participants can mark exchange as completed"), s)
              else
                match updateExchangeStatus (params_id req) st now s with
                | (Ok updatedExchange, s') =>
                    (mkResponse 200 (BExchange updatedExchange), s')
                | (Throw, s') =>
                    (mkResponse 400 (BFailure "Failed to update exchange status"), s')
                end
          end
      end
  end.

End WithStorage.
End Routes.

(** ** The routes [PATCH /api/messages/:id/read] and
    [GET /api/messages/unread] *)
Module MessageRoutes.
Section WithStorage.

Context {S : Type} {queries : IStorageQueries S}.

(** The session's user and [Number(req.params.id)]. *)
Record request : Type := mkRequest {
  user : option Z;
  params_id : Z;
}.

(** The JSON body of a response: [{ message }], the message the storage
    returned, a list of messages, or [{ message, error }] of a catch
    block. *)
Inductive body : Type :=
| BMessage (message : string)
| BUpdated (updatedMessage : option Message)
| BList (messages : list Message)
| BFailure (message : string).

Record response : Type := mkResponse {
  code : Z;
  json_body : body;
}.

(** [app.patch("/api/messages/:id/read", async (req, res) => ...)] *)
Definition patch_message_read (req : request) (s : S) : response * S :=
  match user req with
  | None => (mkResponse 401 (BMessage "Unauthorized"), s)
  | Some user_id =>
      match getMessageById (params_id req) s with
      | Throw => (mkResponse 400 (BFailure "Failed to mark message as read"), s)
      | Ok None => (mkResponse 404 (BMessage "Message not found"), s)
      | Ok (Some message) =>
          if bool_decide (receiverId message ≠ JNum user_id)
          then (mkResponse 403
                  (BMessage "Only the receiver can mark message as read"), s)
          else
            match markMessageAsRead (params_id req) s with
            | (Ok updatedMessage, s') =>
                (mkResponse 200 (BUpdated updatedMessage), s')
            | (Throw, s') =>
                (mkResponse 400 (BFailure "Failed to mark message as read"), s')
            end
      end
  end.

(** [app.get("/api/messages/unread", async (req, res) => ...)] *)
Definition get_unread_messages (req : request) (s : S) : response :=
  match user req with
  | None => mkResponse 401 (BMessage "Unauthorized")
  | Some user_id =>
      match getUnreadMessagesByUserId user_id s with
      | Ok unreadMessages => mkResponse 200 (BList unreadMessages)
      | Throw => mkResponse 500 (BMessage "Failed to fetch unread messages")
      end
  end.

End WithStorage.
End MessageRoutes.

(** ** Vocabulary of the properties *)

(** The frames of the relay, by name. *)
Definition process_error : server_frame := Error "Failed to process message".
Definition identity_error : server_frame :=
  Error "Sender ID doesn't match your identity".
Definition identified_ack : server_frame := System "Identification successful" None.
Definition sent_ack (m : Message) : server_frame :=
  System "Message sent successfully" (Some (msg_id m)).

(** The identify frame a client sends: [{type:"identify", userId}]. *)
Definition identify_frame (userId : jsval) : payload :=
  Text (Value (Frame.mk (JStr "identify") userId
                 JUndefined JUndefined JUndefined JUndefined)).

(** The values that [if (v)] takes for false. *)
Definition falsy_values : list jsval :=
  [JUndefined; JNull; JNum 0; JBool false; JStr ""].

(** [exchangeId: number | null], possibly absent; the number is one that
    an [integer] column holds. *)
Definition optional_integer (v : jsval) : Prop :=
  v = JNull ∨ v = JUndefined ∨ ∃ n, v = JNum n ∧ Db.int4 n = true.

(** The test of the chat branch: [senderId && senderId.toString() === clientId]. *)
Definition sender_matches (senderId : jsval) (me : string) : bool :=
  truthy senderId && bool_decide (toString senderId = Some me).

(** The argument of [storage.createMessage] for a chat frame. *)
Definition chat_data (o : Frame.t) : InsertMessage :=
  {| im_senderId := Frame.senderId o;
     im_receiverId := Frame.receiverId o;
     im_content := Frame.content o;
     im_exchangeId := or_else (Frame.exchangeId o) JNull |}.


(** [e'] is [e] with the status [st] and [updatedAt] refreshed to [now],
    every other field as it was. *)
Definition refreshed (e e' : Exchange) (st : string) (now : Z) : Prop :=
  status e' = st ∧ updatedAt e' = Some now ∧
  ex_id e' = ex_id e ∧ requesterId e' = requesterId e ∧
  providerId e' = providerId e ∧ requestedSkillId e' = requestedSkillId e ∧
  offeredSkillId e' = offeredSkillId e ∧ ex_createdAt e' = ex_createdAt e.

(** [m'] is [m] marked as read, every other field as it was. *)
Definition marked_read (m m' : Message) : Prop :=
  read m' = true ∧ msg_id m' = msg_id m ∧ senderId m' = senderId m ∧
  receiverId m' = receiverId m ∧ exchangeId m' = exchangeId m ∧
  content m' = content m ∧ createdAt m' = createdAt m.

(** In the order of a key. *)
Definition sorted_by {A : Type} (key : A → Z) (l : list A) : Prop :=
  StronglySorted (λ a b, (key a ≤ key b)%Z) l.

(** *** The connection registry as a sequence of operations *)
Module Registry.
Section WithStorage.

Context {S : Type} {storage : IStorage S}.
Import Relay.

(** [register(userId, handle)] is [clients.set], [unregister(userId)]
    is [clients.delete], [lookup(userId)] is [clients.get]. *)
Inductive op : Type :=
| Register (userId : string) (handle : conn)
| Unregister (userId : string).

Definition apply_op (m : gmap string conn) (o : op) : gmap string conn :=
  match o with
  | Register u h => <[u := h]> m
  | Unregister u => delete u m
  end.

(** The handle of the most recent operation on [u], scanning from the
    most recent one: a register gives its handle, an unregister gives
    absent, and [before] stands when no operation is on [u]. *)
Fixpoint latest (u : string) (recent_first : list op) (before : option conn)
  : option conn :=
  match recent_first with
  | [] => before
  | Register u' h :: older =>
      if decide (u' = u) then Some h else latest u older before
  | Unregister u' :: older =>
      if decide (u' = u) then None else latest u older before
  end.

(** What [lookup] should return after the operations [ops], in the
    order they completed, on a registry that started empty. *)
Definition lookup_after (ops : list op) (u : string) : option conn :=
  latest u (rev ops) None.

(** The operations of a frame on a connection whose [clientId] is [me]:
    an identify frame with a userId unregisters the previous identity
    and registers the new one. *)
Definition identify_ops (me : string) (ws : conn) (message : payload) : list op :=
  match message with
  | Text (Value o) =>
      if decide (Frame.type o = JStr "identify") then
        if truthy (Frame.userId o) then
          match toString (Frame.userId o) with
          | Some s =>
              (if decide (me ≠ "unknown"%string) then [Unregister me] else [])
                ++ [Register s ws]
          | None => []
          end
        else []
      else []
  | _ => []
  end.

(** The operations of an event: a close unregisters the [clientId] of
    the closing connection. *)
Definition ops_of_event (e : event) (sv : server S) : list op :=
  match e with
  | Receive ws message _ =>
      match connections sv !! ws with
      | Some me => identify_ops me ws message
      | None => []
      end
  | Close ws =>
      match connections sv !! ws with
      | Some me => [Unregister me]
      | None => []
      end
  | Connect _ => []
  end.

Fixpoint ops_of_run (es : list event) (sv : server S) : list op :=
  match es with
  | [] => []
  | e :: es' => ops_of_event e sv ++ ops_of_run es' (step e sv).1
  end.

End WithStorage.
End Registry.

(** *** The identity of a connection, from the frames it received *)
Module Identity.

Import Relay.




(** The [clientId] after a frame. *)
Definition next_clientId (me : string) (message : payload) : string :=
  match message with
  | Text (Value o) =>
      if decide (Frame.type o = JStr "identify") then
        if truthy (Frame.userId o)
        then default ""%string (toString (Frame.userId o)) else me
      else me
  | _ => me
  end.

End Identity.

(** *** Traces in which handles are fresh and users have a name *)
Module Wellformed.
Section WithStorage.

Context {S : Type} {storage : IStorage S}.
Import Relay.

(** Every handle the registry holds is an open connection whose
    [clientId] is the key it is registered under. *)
Definition registry_sound (sv : server S) : Prop :=
  ∀ u ws, registry sv !! u = Some ws → connections sv !! ws = Some u.

(** A connection event is for a handle that is not open, and no identify
    frame carries a userId that reads "unknown", the [clientId] of a
    connection that has not identified. *)
Definition event_ok (e : event) (sv : server S) : Prop :=
  match e with
  | Connect ws => connections sv !! ws = None
  | Receive _ (Text (Value o)) _ =>
      Frame.type o = JStr "identify" →
      toString (Frame.userId o) ≠ Some "unknown"%string
  | _ => True
  end.

Fixpoint trace_ok (es : list event) (sv : server S) : Prop :=
  match es with
  | [] => True
  | e :: es' => event_ok e sv ∧ trace_ok es' (step e sv).1
  end.

End WithStorage.
End Wellformed.

(** *** Who may request which status *)
Module Transition.
Section WithStorage.

Context {S : Type} {storage : IStorage S}.
Import Routes.

(** The table of the state machine: accepted and declined are for the
    provider, completed for the requester or the provider. *)
Definition may_request (st : string) (caller : Z) (e : Exchange) : bool :=
  if bool_decide (st = "accepted" ∨ st = "declined")%string
  then bool_decide (caller = providerId e)
  else if bool_decide (st = "completed"%string)
  then bool_decide (caller = requesterId e ∨ caller = providerId e)
  else true.

Definition forbidden (st : string) : response :=
  mkResponse 403
    (BMessage (if bool_decide (st = "completed"%string)
               then "Only participants can mark exchange as completed"
               else "Only the provider can accept or decline exchanges")).

(** The answer once the storage has been asked to update. *)
Definition applied (r : outcome (option Exchange) * S) : response * S :=
  match r with
  | (Ok updatedExchange, s') => (mkResponse 200 (BExchange updatedExchange), s')
  | (Throw, s') =>
      (mkResponse 400 (BFailure "Failed to update exchange status"), s')
  end.

(** A request that is refused and leaves the exchanges as they were. *)
Definition rejected_unchanged (req : request) (now : Z) (s : S) : Prop :=
  code (patch_exchange_status req now s).1 ≠ 200%Z ∧
  exchangeRows (patch_exchange_status req now s).2 = exchangeRows s.

End WithStorage.
End Transition.

(** ** Scenarios: states reached by running the model *)
Module Scenario.

Import Relay Routes.

(** One connection is open and has not identified. *)
Definition one_open : server DatabaseStorage.t :=
  (run [Connect 1] (start DatabaseStorage.new)).1.

(** Users 10 and 11 are identified on the connections 1 and 2. *)
Definition two_users : server DatabaseStorage.t :=
  (run [Connect 1; Receive 1 (identify_frame (JNum 10)) 5;
        Connect 2; Receive 2 (identify_frame (JNum 11)) 6]
     (start DatabaseStorage.new)).1.

(** The same users on a server that keeps its records in memory. *)
Definition two_users_mem : server MemStorage.t :=
  (run [Connect 1; Receive 1 (identify_frame (JNum 10)) 5;
        Connect 2; Receive 2 (identify_frame (JNum 11)) 6]
     (start MemStorage.new)).1.

(** The same, with the database out of reach. *)
Definition two_users_db_down : server DatabaseStorage.t :=
  mkServer (connections two_users) (registry two_users)
    (Db.mk [] 1 [] 1 false).


(** User 5 identifies on connection 1, then again on connection 2, and
    connection 1 closes. *)
Definition superseded : list event :=
  [Connect 1; Receive 1 (identify_frame (JNum 5)) 10;
   Connect 2; Receive 2 (identify_frame (JNum 5)) 20;
   Close 1].

(** User 3 asks user 2 for an exchange; it gets the identifier 1. *)
Definition requested : DatabaseStorage.t :=
  (DatabaseStorage.createExchange (mkInsertExchange 3 2 1 2) 10
     DatabaseStorage.new).2.
Definition requested_mem : MemStorage.t :=
  (MemStorage.createExchange (mkInsertExchange 3 2 1 2) 10 MemStorage.new).2.

(** The provider accepts it and the requester completes it, through
    the route. *)
Definition completed : DatabaseStorage.t :=
  (patch_exchange_status (mkRequest (Some 3%Z) 1 (JStr "completed")) 30
     (patch_exchange_status (mkRequest (Some 2%Z) 1 (JStr "accepted")) 20
        requested).2).2.

Definition completed_mem : MemStorage.t :=
  (patch_exchange_status (mkRequest (Some 3%Z) 1 (JStr "completed")) 30
     (patch_exchange_status (mkRequest (Some 2%Z) 1 (JStr "accepted")) 20
        requested_mem).2).2.

(** The provider then asks for [accepted] again. *)
Definition accept_again : request := mkRequest (Some 2%Z) 1 (JStr "accepted").

(** The requester, who is not the provider, asks to accept the exchange;
    somebody asks for a status that does not exist. *)
Definition accept_by_requester : request :=
  mkRequest (Some 3%Z) 1 (JStr "accepted").
Definition cancel : request := mkRequest (Some 2%Z) 1 (JStr "cancelled").

(** The exchange of [requested], as both stores return it. *)
Definition pending_exchange (updatedAt : option Z) : Exchange :=
  mkExchange 1 3 2 1 2 "pending" (Some 10%Z) updatedAt.

(** User 10 says hi to user 11; the message as the database stores it
    in [two_users], and the database afterwards. *)
Definition hi : Frame.t :=
  Frame.mk (JStr "chat") JUndefined (JNum 10) (JNum 11) (JStr "hi") JNull.
Definition hi_message : Message :=
  mkMessage 1 (JNum 10) (JNum 11) JNull (JStr "hi") false 9.
Definition hi_stored : DatabaseStorage.t :=
  Db.mk [] 1 [hi_message] 2 true.

(** User 10 sends user 11 a message with nothing in it; user 10 sends a
    message under the name of user 12; a frame of a type the relay does
    not know. *)
Definition nothing : Frame.t :=
  Frame.mk (JStr "chat") JUndefined (JNum 10) (JNum 11) (JStr "") JNull.
Definition forged : Frame.t :=
  Frame.mk (JStr "chat") JUndefined (JNum 12) (JNum 11) (JStr "hi") JNull.
Definition ping : Frame.t :=
  Frame.mk (JStr "ping") JUndefined JUndefined JUndefined JUndefined JUndefined.

(** User 10, identified on connection 1, identifies again as user 12;
    the events that lead to [two_users]. *)
Definition identify_12 : Frame.t :=
  Frame.mk (JStr "identify") (JNum 12) JUndefined JUndefined JUndefined JUndefined.
Definition two_identified : list event :=
  [Connect 1; Receive 1 (identify_frame (JNum 10)) 5;
   Connect 2; Receive 2 (identify_frame (JNum 11)) 6].

(** User 10 writes to user 11 once more, about the exchange 1; both
    messages in the database and in memory. *)
Definition again : Frame.t :=
  Frame.mk (JStr "chat") JUndefined (JNum 10) (JNum 11) (JStr "again") (JNum 1).
Definition again_message : Message :=
  mkMessage 2 (JNum 10) (JNum 11) (JNum 1) (JStr "again") false 12.
Definition talked : DatabaseStorage.t :=
  (DatabaseStorage.createMessage (chat_data again) 12 hi_stored).2.
Definition hi_stored_mem : MemStorage.t :=
  (MemStorage.createMessage (chat_data hi) 9 MemStorage.new).2.
Definition talked_mem : MemStorage.t :=
  (MemStorage.createMessage (chat_data again) 12 hi_stored_mem).2.

(** User 7, who has no part in the exchange 1, asks to set it back to
    pending; a database that is out of reach. *)
Definition reopen_by_stranger : request := mkRequest (Some 7%Z) 1 (JStr "pending").
Definition db_down : DatabaseStorage.t := Db.mk [] 1 [] 1 false.

End Scenario.


(** * Properties *)

(** ** JavaScript values *)

Lemma truthy_toString v : truthy v = true → is_Some (toString v).
Proof. destruct v as [| |[]| |]; simpl; eauto; discriminate. Qed.

Lemma falsy_iff v : truthy v = false ↔ v ∈ falsy_values.
Proof.
  unfold falsy_values. rewrite !elem_of_cons, elem_of_nil. split.
  - destruct v as [| |[]|n|s]; simpl; try naive_solver.
    + rewrite negb_false_iff, Z.eqb_eq. naive_solver.
    + rewrite negb_false_iff, String.eqb_eq. naive_solver.
  - intros [->|[->|[->|[->|[->|[]]]]]]; done.
Qed.






(** ** The message handler, case by case *)
Section HandlerFacts.

Context {S : Type} {storage : IStorage S}.
Import Relay.

Implicit Types (st : state S) (ws : conn) (o : Frame.t).

Ltac run_handler :=
  unfold on_message, try_catch, bind, lift, ret, send, get_clientId,
    set_clientId, clients_set, clients_delete, clients_get,
    await_createMessage, call_toString, sent_more; simpl.

Lemma on_message_unparseable ws now st :
  on_message ws Unparseable now st = (Ok tt, sent_more st [(ws, process_error)]).
Proof. by run_handler. Qed.

Lemma on_message_null ws now st :
  on_message ws (Text Null) now st = (Ok tt, sent_more st [(ws, process_error)]).
Proof. by run_handler. Qed.

Lemma on_message_other ws o now st :
  Frame.type o ≠ JStr "identify" → Frame.type o ≠ JStr "chat" →
  on_message ws (Text (Value o)) now st = (Ok tt, st).
Proof. intros. run_handler. by rewrite !decide_False. Qed.

Lemma on_message_identify_falsy ws o now st :
  Frame.type o = JStr "identify" → truthy (Frame.userId o) = false →
  on_message ws (Text (Value o)) now st = (Ok tt, st).
Proof. intros Ht Hu. run_handler. by rewrite decide_True, Hu. Qed.

Lemma on_message_identify ws o now st s :
  Frame.type o = JStr "identify" → truthy (Frame.userId o) = true →
  toString (Frame.userId o) = Some s →
  on_message ws (Text (Value o)) now st =
    (Ok tt,
     mkState s
       (<[s := ws]> (if decide (clientId st ≠ "unknown"%string)
                     then delete (clientId st) (clients st) else clients st))
       (store st) (sent st ++ [(ws, identified_ack)])).
Proof.
  intros Ht Hu Hs. run_handler. rewrite decide_True, Hu by done.
  destruct (decide (clientId st ≠ "unknown"%string)); simpl; by rewrite Hs.
Qed.

Lemma on_message_chat_mismatch ws o now st :
  Frame.type o = JStr "chat" →
  sender_matches (Frame.senderId o) (clientId st) = false →
  on_message ws (Text (Value o)) now st =
    (Ok tt, sent_more st [(ws, identity_error)]).
Proof.
  intros Ht Hm. run_handler.
  rewrite decide_False, decide_True by (by rewrite ?Ht).
  unfold sender_matches in Hm.
  destruct (truthy (Frame.senderId o)) eqn:Htr; simpl in *; [|done].
  destruct (truthy_toString _ Htr) as [s Hs]. rewrite Hs in *. simpl.
  rewrite bool_decide_eq_false in Hm.
  rewrite bool_decide_false; [done|congruence].
Qed.

Lemma on_message_chat_throw ws o now st store' :
  Frame.type o = JStr "chat" →
  sender_matches (Frame.senderId o) (clientId st) = true →
  createMessage (chat_data o) now (store st) = (Throw, store') →
  on_message ws (Text (Value o)) now st =
    (Ok tt, mkState (clientId st) (clients st) store'
              (sent st ++ [(ws, process_error)])).
Proof.
  intros Ht Hm Hc. run_handler.
  rewrite decide_False, decide_True by (by rewrite ?Ht).
  unfold sender_matches in Hm. apply andb_prop in Hm as [Htr Hm].
  apply bool_decide_eq_true in Hm. rewrite Htr, Hm. simpl.
  rewrite bool_decide_true by done. fold (chat_data o). by rewrite Hc.
Qed.

(** When the store returns the new message, the sender is acknowledged;
    then [receiverId.toString()] throws on a missing receiver, or the
    receiver's handle, if any, is sent the message. *)
Lemma on_message_chat_ok ws o now st m store' :
  Frame.type o = JStr "chat" →
  sender_matches (Frame.senderId o) (clientId st) = true →
  createMessage (chat_data o) now (store st) = (Ok m, store') →
  on_message ws (Text (Value o)) now st =
    (Ok tt,
     mkState (clientId st) (clients st) store'
       (sent st ++ (ws, sent_ack m) ::
          match toString (Frame.receiverId o) with
          | None => [(ws, process_error)]
          | Some key =>
              match clients st !! key with
              | Some r => [(r, Push m)]
              | None => []
              end
          end)).
Proof.
  intros Ht Hm Hc. run_handler.
  rewrite decide_False, decide_True by (by rewrite ?Ht).
  unfold sender_matches in Hm. apply andb_prop in Hm as [Htr Hm].
  apply bool_decide_eq_true in Hm. rewrite Htr, Hm. simpl.
  rewrite bool_decide_true by done. fold (chat_data o). rewrite Hc. simpl.
  destruct (toString (Frame.receiverId o)) as [key|]; simpl.
  - destruct (clients st !! key); simpl; by rewrite <-?app_assoc.
  - by rewrite <-app_assoc.
Qed.

(** The chat branch touches neither [clientId] nor [clients]. *)
Lemma on_message_chat_frame ws o now st :
  Frame.type o = JStr "chat" →
  clientId (on_message ws (Text (Value o)) now st).2 = clientId st ∧
  clients (on_message ws (Text (Value o)) now st).2 = clients st.
Proof.
  intros Ht.
  destruct (sender_matches (Frame.senderId o) (clientId st)) eqn:Hm.
  - destruct (createMessage (chat_data o) now (store st)) as [[m|] store'] eqn:Hc.
    + by rewrite (on_message_chat_ok _ _ _ _ _ _ Ht Hm Hc).
    + by rewrite (on_message_chat_throw _ _ _ _ _ Ht Hm Hc).
  - by rewrite (on_message_chat_mismatch _ _ _ _ Ht Hm).
Qed.

Lemma on_message_clientId ws message now st :
  clientId (on_message ws message now st).2
    = Identity.next_clientId (clientId st) message.
Proof.
  unfold Identity.next_clientId. destruct message as [|[|o]].
  - by rewrite on_message_unparseable.
  - by rewrite on_message_null.
  - destruct (decide (Frame.type o = JStr "identify")) as [Ht|Ht].
    + destruct (truthy (Frame.userId o)) eqn:Hu.
      * destruct (truthy_toString _ Hu) as [s Hs].
        rewrite (on_message_identify _ _ _ _ _ Ht Hu Hs). by rewrite Hs.
      * by rewrite on_message_identify_falsy.
    + destruct (decide (Frame.type o = JStr "chat")) as [Hc|Hc].
      * by apply on_message_chat_frame.
      * by rewrite on_message_other.
Qed.

Lemma on_message_clients ws message now st :
  clients (on_message ws message now st).2
    = foldl Registry.apply_op (clients st)
        (Registry.identify_ops (clientId st) ws message).
Proof.
  unfold Registry.identify_ops. destruct message as [|[|o]].
  - by rewrite on_message_unparseable.
  - by rewrite on_message_null.
  - destruct (decide (Frame.type o = JStr "identify")) as [Ht|Ht].
    + destruct (truthy (Frame.userId o)) eqn:Hu.
      * destruct (truthy_toString _ Hu) as [s Hs].
        rewrite (on_message_identify _ _ _ _ _ Ht Hu Hs). rewrite Hs. simpl.
        rewrite foldl_app. by destruct (decide (clientId st ≠ "unknown"%string)).
      * by rewrite on_message_identify_falsy.
    + destruct (decide (Frame.type o = JStr "chat")) as [Hc|Hc].
      * by apply on_message_chat_frame.
      * by rewrite on_message_other.
Qed.

End HandlerFacts.

(** ** The server, event by event *)
Section ServerFacts.

Context {S : Type} {storage : IStorage S}.
Import Relay.

Implicit Types (sv : server S) (ws : conn) (o : Frame.t).

Lemma step_connect ws sv :
  step (Connect ws) sv
    = (mkServer (<[ws := "unknown"%string]> (connections sv)) (registry sv)
         (storage_state sv), [(ws, welcome)]).
Proof. done. Qed.

Lemma step_close ws me sv :
  connections sv !! ws = Some me →
  step (Close ws) sv
    = (mkServer (delete ws (connections sv)) (delete me (registry sv))
         (storage_state sv), []).
Proof. intros Hme. cbn [step]. by rewrite Hme. Qed.

(** A frame after which the handler's [clientId] and [clients] are what
    they were leaves the connections and the registry as they were. *)
Lemma step_receive_same sv ws me message now s' out :
  connections sv !! ws = Some me →
  (on_message ws message now (mkState me (registry sv) (storage_state sv) [])).2
    = mkState me (registry sv) s' out →
  step (Receive ws message now) sv
    = (mkServer (connections sv) (registry sv) s', out).
Proof.
  intros Hme Hst. simpl. rewrite Hme, Hst. simpl. by rewrite insert_id.
Qed.

Lemma step_receive_unchanged sv ws me message now out :
  connections sv !! ws = Some me →
  (on_message ws message now (mkState me (registry sv) (storage_state sv) [])).2
    = mkState me (registry sv) (storage_state sv) out →
  step (Receive ws message now) sv = (sv, out).
Proof.
  intros Hme Hst. rewrite (step_receive_same _ _ _ _ _ _ _ Hme Hst).
  by destruct sv.
Qed.

Lemma step_identify sv ws userId U now :
  connections sv !! ws = Some "unknown"%string →
  truthy userId = true → toString userId = Some U →
  step (Receive ws (identify_frame userId) now) sv
    = (mkServer (<[ws := U]> (connections sv)) (<[U := ws]> (registry sv))
         (storage_state sv), [(ws, identified_ack)]).
Proof.
  intros Hws Hu HU. cbn [step]. rewrite Hws.
  unfold identify_frame. by erewrite on_message_identify.
Qed.

(** *** The registry is the fold of the operations *)

Lemma step_registry e sv :
  registry (step e sv).1
    = foldl Registry.apply_op (registry sv) (Registry.ops_of_event e sv).
Proof.
  destruct e as [ws|ws message now|ws]; simpl; [done|..];
    destruct (connections sv !! ws) as [me|]; try done.
  cbn [fst registry]. by rewrite on_message_clients.
Qed.

Lemma run_registry es sv :
  registry (run es sv).1
    = foldl Registry.apply_op (registry sv) (Registry.ops_of_run es sv).
Proof.
  revert sv. induction es as [|e es IH]; intros sv; [done|].
  cbn [run Registry.ops_of_run fst]. by rewrite IH, step_registry, foldl_app.
Qed.

Lemma latest_snoc u ops (op : Registry.op) before :
  Registry.latest u (rev (ops ++ [op])) before =
    match op with
    | Registry.Register u' h =>
        if decide (u' = u) then Some h else Registry.latest u (rev ops) before
    | Registry.Unregister u' =>
        if decide (u' = u) then None else Registry.latest u (rev ops) before
    end.
Proof. rewrite rev_app_distr. by destruct op. Qed.

Lemma foldl_apply_lookup ops (m : gmap string conn) u :
  foldl Registry.apply_op m ops !! u = Registry.latest u (rev ops) (m !! u).
Proof.
  induction ops as [|op ops IH] using rev_ind; [done|].
  rewrite foldl_app, latest_snoc. simpl.
  destruct op as [u' h|u']; simpl.
  - rewrite lookup_insert. by case_decide.
  - rewrite lookup_delete. by case_decide.
Qed.

Lemma registry_lookup_latest es (s : S) u :
  registry (run es (start s)).1 !! u
    = Registry.lookup_after (Registry.ops_of_run es (start s)) u.
Proof. by rewrite run_registry, foldl_apply_lookup. Qed.

(** *** The [clientId] of a connection is its identity *)




End ServerFacts.

(** ** The relay *)
Section RelayProperties.

Context {S : Type} {storage : IStorage S}.
Import Relay.

Implicit Types (sv : server S) (ws : conn) (o : Frame.t).

(** C2, as the code has it.  After any sequence of events on a server
    that started with an empty registry, [lookup] of a userId is the
    handle of the most recent register for it, or absent when the most
    recent operation on it is an unregister or there is none, where an
    identify frame registers (after unregistering the previous identity
    of the connection) and a close unregisters the [clientId] of the
    closing connection, whichever handle is registered for it.  So when
    connection A registers a user, connection B registers the same user
    and A then closes, the lookup of that user is absent. *)
Theorem registry_lookup_is_latest_operation :
  (∀ (s : S) es u,
     registry (run es (start s)).1 !! u
       = Registry.lookup_after (Registry.ops_of_run es (start s)) u) ∧
  (∀ (s : S) (A B : conn) (userId : jsval) U now1 now2,
     A ≠ B → truthy userId = true → toString userId = Some U →
     registry (run [Connect A; Receive A (identify_frame userId) now1;
                    Connect B; Receive B (identify_frame userId) now2;
                    Close A] (start s)).1 !! U = None).
Proof.
  split; [intros; apply registry_lookup_latest|].
  intros s A B userId U now1 now2 HAB Hu HU.
  cbn [run fst]. rewrite (step_connect A). cbn [fst].
  rewrite (step_identify _ _ _ U) by (done || apply lookup_insert_eq). cbn [fst].
  rewrite (step_connect B). cbn [fst connections registry storage_state].
  rewrite (step_identify _ _ _ U) by (done || apply lookup_insert_eq).
  cbn [fst connections registry storage_state].
  erewrite step_close; cbn [connections].
  - apply lookup_delete_eq.
  - rewrite lookup_insert_ne, lookup_insert_ne by done. apply lookup_insert_eq.
Qed.

(** C3, as the code has it.  On an open connection, a frame whose JSON
    is a value other than null and whose type is neither "identify" nor
    "chat" is ignored: nothing is sent and nothing changes.  A frame whose
    JSON is null, and a frame that is not JSON, are answered with an
    error frame on the same connection, and the connection, the registry
    and the store stay as they were. *)
Theorem unknown_type_ignored_malformed_answered sv ws me now :
  connections sv !! ws = Some me →
  (∀ o, Frame.type o ≠ JStr "identify" → Frame.type o ≠ JStr "chat" →
        step (Receive ws (Text (Value o)) now) sv = (sv, [])) ∧
  step (Receive ws (Text Null) now) sv = (sv, [(ws, process_error)]) ∧
  step (Receive ws Unparseable now) sv = (sv, [(ws, process_error)]).
Proof.
  intros Hme. split_and!.
  - intros o Hi Hc. apply (step_receive_unchanged _ _ me); [done|].
    by rewrite on_message_other.
  - apply (step_receive_unchanged _ _ me); [done|]. by rewrite on_message_null.
  - apply (step_receive_unchanged _ _ me); [done|].
    by rewrite on_message_unparseable.
Qed.


(** C6.  When the senderId of a chat frame is the identity of the
    connection and [createMessage] fails, the only frame sent is an error
    frame to the sender: no acknowledgment, no push.  The connections and
    the registry are unchanged, so the connection remains open. *)
Theorem persistence_failure_is_reported sv ws me o now s' :
  connections sv !! ws = Some me →
  Frame.type o = JStr "chat" →
  truthy (Frame.senderId o) = true →
  toString (Frame.senderId o) = Some me →
  createMessage (chat_data o) now (storage_state sv) = (Throw, s') →
  step (Receive ws (Text (Value o)) now) sv
    = (mkServer (connections sv) (registry sv) s', [(ws, process_error)]).
Proof.
  intros Hme Ht Htr Hs Hc. apply (step_receive_same _ _ me); [done|].
  rewrite (on_message_chat_throw _ _ _ _ s'); [done|done| |done].
  unfold sender_matches. cbn [clientId]. rewrite Htr, Hs.
  by rewrite bool_decide_true.
Qed.

(** C10.  An identify frame whose userId is absent, null, zero, false or
    the empty string changes nothing, neither the registry nor the
    identity of the connection, and no frame is sent. *)
Theorem identify_without_userId_is_ignored sv ws me o now :
  connections sv !! ws = Some me →
  Frame.type o = JStr "identify" →
  Frame.userId o ∈ falsy_values →
  step (Receive ws (Text (Value o)) now) sv = (sv, []).
Proof.
  intros Hme Ht Hu%falsy_iff. apply (step_receive_unchanged _ _ me); [done|].
  by rewrite on_message_identify_falsy.
Qed.

End RelayProperties.

(** ** The two stores *)

Lemma with_status_refreshed e st now : refreshed e (with_status e st now) st now.
Proof. by repeat split. Qed.

(** *** [MemStorage] *)

Lemma mem_new_fresh : MemStorage.counters_fresh MemStorage.new.
Proof. split; intros id [x Hx]; simpl in Hx; by rewrite lookup_empty in Hx. Qed.

(** With the counters ahead of the keys, a new message takes a key that
    is free: the messages are the former ones and the new one. *)
Lemma mem_createMessage_adds_one d now this :
  MemStorage.counters_fresh this →
  let r := MemStorage.createMessage d now this in
  MemStorage.getMessages r.2 ≡ₚ r.1 :: MemStorage.getMessages this ∧
  read r.1 = false ∧
  MemStorage.counters_fresh r.2.
Proof.
  intros [Hex Hmsg]. cbn zeta. unfold MemStorage.createMessage, MemStorage.getMessages.
  cbn [fst snd MemStorage.messages read].
  assert (MemStorage.messages this !! MemStorage.messageIdCounter this = None) as Hfree.
  { apply eq_None_not_Some. intros Hsome%Hmsg. lia. }
  split_and!.
  - by rewrite map_to_list_insert.
  - done.
  - split; cbn [MemStorage.exchanges MemStorage.messages
                MemStorage.exchangeIdCounter MemStorage.messageIdCounter].
    + done.
    + intros id [x Hx]. destruct (decide (MemStorage.messageIdCounter this = id)) as [<-|Hne].
      * lia.
      * rewrite lookup_insert_ne in Hx by done.
        assert (id < MemStorage.messageIdCounter this)%Z by eauto. lia.
Qed.

Lemma mem_updateExchangeStatus_fresh id st now this :
  MemStorage.counters_fresh this →
  MemStorage.counters_fresh (MemStorage.updateExchangeStatus id st now this).2.
Proof.
  intros [Hex Hmsg]. unfold MemStorage.updateExchangeStatus, MemStorage.getExchangeById.
  destruct (MemStorage.exchanges this !! id) as [e|] eqn:He; [|done].
  split; cbn [snd MemStorage.exchanges MemStorage.messages
              MemStorage.exchangeIdCounter MemStorage.messageIdCounter]; [|done].
  intros id' [x Hx]. destruct (decide (id = id')) as [<-|Hne]; [eauto|].
  rewrite lookup_insert_ne in Hx by done. eauto.
Qed.

(** *** [DatabaseStorage] *)

Lemma update_absent id (f : Exchange → Exchange) (rows : list Exchange) :
  filter (λ row, DatabaseStorage.eq_id id row = true) rows = [] →
  (λ row, if DatabaseStorage.eq_id id row then f row else row) <$> rows = rows.
Proof.
  induction rows as [|r rows IH]; [done|]. rewrite filter_cons, fmap_cons.
  destruct (DatabaseStorage.eq_id id r) eqn:Hr.
  - by rewrite decide_True.
  - rewrite decide_False by done. intros Hrows. by rewrite IH.
Qed.

Lemma filter_update id id' (f : Exchange → Exchange) (rows : list Exchange) :
  (∀ r, ex_id (f r) = ex_id r) →
  filter (λ row, DatabaseStorage.eq_id id' row = true)
    ((λ row, if DatabaseStorage.eq_id id row then f row else row) <$> rows)
  = (λ row, if DatabaseStorage.eq_id id row then f row else row)
      <$> filter (λ row, DatabaseStorage.eq_id id' row = true) rows.
Proof.
  intros Hf. induction rows as [|r rows IH]; [done|].
  rewrite fmap_cons, !filter_cons, IH.
  assert (DatabaseStorage.eq_id id' (if DatabaseStorage.eq_id id r then f r else r)
          = DatabaseStorage.eq_id id' r) as ->.
  { unfold DatabaseStorage.eq_id. destruct (ex_id r =? id)%Z; by rewrite ?Hf. }
  by case_decide.
Qed.

(** A message the database stored is a new last row, unread, with the
    values it was given; the receiver it was given is a number. *)
Lemma db_createMessage_ok d now this m this' :
  DatabaseStorage.createMessage d now this = (Ok m, this') →
  Db.messages this' = Db.messages this ++ [m] ∧
  Db.exchanges this' = Db.exchanges this ∧
  read m = false ∧
  msg_id m = Db.messages_id_seq this ∧
  senderId m = im_senderId d ∧ receiverId m = im_receiverId d ∧
  content m = im_content d ∧
  (∃ n, im_senderId d = JNum n) ∧
  (∃ r, im_receiverId d = JNum r).
Proof.
  unfold DatabaseStorage.createMessage, Db.insert_message,
    Db.integer_notNull, Db.text_notNull. intros Hm.
  destruct (Db.reachable this); [|done].
  destruct (im_senderId d) as [| | |sender|]; try done.
  destruct (Db.int4 sender); [|done].
  destruct (im_receiverId d) as [| | |receiver|]; try done.
  destruct (Db.int4 receiver); [|done].
  destruct (Db.integer_nullable (im_exchangeId d)); [|done].
  destruct (im_content d) as [| | | |c]; try done.
  destruct (Db.without_nul c); [|done].
  injection Hm as <- <-. simpl. split_and!; eauto.
Qed.

Lemma db_createMessage_throw d now this this' :
  DatabaseStorage.createMessage d now this = (Throw, this') → this' = this.
Proof.
  unfold DatabaseStorage.createMessage, Db.insert_message. intros Hm.
  repeat case_match; by simplify_eq.
Qed.

(** The database stores the values of a frame of the documented shape
    that its columns hold. *)
Lemma db_createMessage_typed d now this sender receiver c :
  Db.reachable this = true →
  im_senderId d = JNum sender → Db.int4 sender = true →
  im_receiverId d = JNum receiver → Db.int4 receiver = true →
  im_content d = JStr c → Db.without_nul c = true →
  optional_integer (im_exchangeId d) →
  ∃ m this', DatabaseStorage.createMessage d now this = (Ok m, this').
Proof.
  intros Hr Hs Hs4 Hrc Hrc4 Hc Hnul Hx.
  unfold DatabaseStorage.createMessage, Db.insert_message,
    Db.integer_notNull, Db.text_notNull, Db.integer_nullable.
  rewrite Hr, Hs, Hs4, Hrc, Hrc4, Hc, Hnul.
  destruct Hx as [->|[->|(n & -> & ->)]]; eauto.
Qed.

Lemma or_else_null_optional v :
  optional_integer v → optional_integer (or_else v JNull).
Proof.
  intros [->|[->|(n & -> & Hn)]]; unfold or_else; simpl; [by left|by left|].
  destruct (n =? 0)%Z; simpl; [by left|right; right; eauto].
Qed.

(** C8.  In both stores, [updateExchangeStatus] on an identifier that is
    present returns the exchange with the new status and [updatedAt]
    refreshed, every other field as it was, and stores it; the exchanges
    of other identifiers and the messages are untouched.  On an
    identifier that is absent it returns absent and the store is as it
    was. *)
Theorem updateExchangeStatus_sets_status_only (id : Z) (st : string) (now : Z) :
  (∀ this e,
     MemStorage.exchanges this !! id = Some e →
     ∃ e' this',
       MemStorage.updateExchangeStatus id st now this = (Some e', this') ∧
       refreshed e e' st now ∧
       MemStorage.exchanges this' !! id = Some e' ∧
       (∀ id', id' ≠ id →
               MemStorage.exchanges this' !! id' = MemStorage.exchanges this !! id') ∧
       MemStorage.messages this' = MemStorage.messages this) ∧
  (∀ this,
     MemStorage.exchanges this !! id = None →
     MemStorage.updateExchangeStatus id st now this = (None, this)) ∧
  (∀ this e,
     DatabaseStorage.getExchangeById id this = Ok (Some e) →
     ∃ e' this',
       DatabaseStorage.updateExchangeStatus id st now this = (Ok (Some e'), this') ∧
       refreshed e e' st now ∧
       DatabaseStorage.getExchangeById id this' = Ok (Some e') ∧
       Forall2 (λ row row', if decide (ex_id row = id)
                            then refreshed row row' st now else row' = row)
         (Db.exchanges this) (Db.exchanges this') ∧
       Db.messages this' = Db.messages this) ∧
  (∀ this,
     DatabaseStorage.getExchangeById id this = Ok None →
     DatabaseStorage.updateExchangeStatus id st now this = (Ok None, this)).
Proof.
  split_and!.
  - intros this e He.
    unfold MemStorage.updateExchangeStatus, MemStorage.getExchangeById.
    rewrite He. eexists _, _. split; [done|].
    cbn [MemStorage.exchanges MemStorage.messages].
    split_and!; [apply with_status_refreshed|apply lookup_insert_eq| |done].
    intros id' Hid. by apply lookup_insert_ne.
  - intros this He.
    unfold MemStorage.updateExchangeStatus, MemStorage.getExchangeById.
    by rewrite He.
  - intros this e.
    unfold DatabaseStorage.getExchangeById, DatabaseStorage.updateExchangeStatus,
      Db.select_exchanges, Db.update_exchanges.
    destruct (Db.reachable this) eqn:Hr; [|done]. intros [= He].
    destruct (filter _ (Db.exchanges this)) as [|e0 rest] eqn:Hf; [done|].
    injection He as ->.
    assert (DatabaseStorage.eq_id id e = true) as Hid.
    { assert (e ∈ filter (λ row, DatabaseStorage.eq_id id row = true)
                (Db.exchanges this)) as Hin by (rewrite Hf; left).
      by apply list_elem_of_filter in Hin as [? _]. }
    eexists _, _. split; [reflexivity|].
    cbn [Db.exchanges Db.messages Db.reachable].
    rewrite filter_update, Hf by done. cbn [fmap list_fmap head]. rewrite Hid.
    split_and!; [apply with_status_refreshed|done| |done].
    apply Forall2_fmap_r, Forall_Forall2_diag, Forall_forall. intros row _.
    unfold DatabaseStorage.eq_id. case_decide as Hrow; unfold compose; cbv beta.
    + rewrite (proj2 (Z.eqb_eq _ _) Hrow). apply with_status_refreshed.
    + by rewrite (proj2 (Z.eqb_neq _ _) Hrow).
  - intros this.
    unfold DatabaseStorage.getExchangeById, DatabaseStorage.updateExchangeStatus,
      Db.select_exchanges, Db.update_exchanges.
    destruct (Db.reachable this) eqn:Hr; [|done]. intros [= He].
    destruct (filter _ (Db.exchanges this)) as [|e0 rest] eqn:Hf; [|done].
    rewrite update_absent by done. simpl. destruct this; simpl in *. by subst.
Qed.

(** ** The relay over the database *)
Section RelayOverDatabase.

Import Relay.

Implicit Types (sv : server DatabaseStorage.t) (ws : conn) (o : Frame.t).

(** C5.  When the senderId of a chat frame is the identity of the
    connection and the message is stored, the store has exactly one more
    message, the one returned, unread; the sender is sent the
    acknowledgment with the identifier of that message; and the handle
    registered for the receiver, if there is one, is sent that message,
    once.  Nothing else is sent: with no handle registered for the
    receiver there is no push. *)
Theorem accepted_chat_is_persisted_acknowledged_and_pushed sv ws me o now m db' :
  connections sv !! ws = Some me →
  Frame.type o = JStr "chat" →
  truthy (Frame.senderId o) = true →
  toString (Frame.senderId o) = Some me →
  createMessage (chat_data o) now (storage_state sv) = (Ok m, db') →
  ∃ key,
    toString (Frame.receiverId o) = Some key ∧
    step (Receive ws (Text (Value o)) now) sv
      = (mkServer (connections sv) (registry sv) db',
         (ws, sent_ack m) ::
           match registry sv !! key with
           | Some r => [(r, Push m)]
           | None => []
           end) ∧
    messageRows db' = messageRows (storage_state sv) ++ [m] ∧
    read m = false.
Proof.
  intros Hme Ht Htr Hs Hc.
  destruct (db_createMessage_ok _ _ _ _ _ Hc)
    as (Hrows & _ & Hread & _ & _ & _ & _ & _ & r & Hr).
  simpl in Hr. exists (pretty r). rewrite Hr. split; [done|]. split; [|done].
  apply (step_receive_same _ _ me); [done|].
  rewrite (on_message_chat_ok _ _ _ _ m db'); [|done| |done].
  - cbn [snd clients sent]. by rewrite Hr.
  - unfold sender_matches. cbn [clientId]. rewrite Htr, Hs.
    by rewrite bool_decide_true.
Qed.


End RelayOverDatabase.


(** C9, as the code has it.  The relay does not look at the content.
    For any storage, a chat frame from the identified sender is handed to
    [createMessage] with its content as it is, whatever the content is,
    and what follows is decided by that call alone: when it returns a
    message, the store is the one it left, the sender is acknowledged and
    the message is forwarded; when it fails, the sender is sent the error
    of the catch block.  Over the database, a frame of the documented
    shape whose numbers fit the [integer] columns and whose content is a
    string that a [text] column holds (any string without the character
    of code 0, the empty string included) is stored with that string as
    its content. *)
Theorem chat_content_is_persisted_as_sent :
  (∀ (S : Type) (storage : IStorage S) (sv : Relay.server S) ws me o now,
     Relay.connections sv !! ws = Some me →
     Frame.type o = JStr "chat" →
     sender_matches (Frame.senderId o) me = true →
     im_content (chat_data o) = Frame.content o ∧
     Relay.step (Relay.Receive ws (Text (Value o)) now) sv
     = match createMessage (chat_data o) now (Relay.storage_state sv) with
       | (Ok m, s') =>
           (Relay.mkServer (Relay.connections sv) (Relay.registry sv) s',
            (ws, sent_ack m) ::
              match toString (Frame.receiverId o) with
              | None => [(ws, process_error)]
              | Some key =>
                  match Relay.registry sv !! key with
                  | Some r => [(r, Push m)]
                  | None => []
                  end
              end)
       | (Throw, s') =>
           (Relay.mkServer (Relay.connections sv) (Relay.registry sv) s',
            [(ws, process_error)])
       end) ∧
  (∀ (sv : Relay.server DatabaseStorage.t) ws o now sender receiver c,
     Relay.connections sv !! ws = Some (pretty sender) →
     Db.reachable (Relay.storage_state sv) = true →
     Frame.type o = JStr "chat" →
     Frame.senderId o = JNum sender → sender ≠ 0%Z → Db.int4 sender = true →
     Frame.receiverId o = JNum receiver → Db.int4 receiver = true →
     optional_integer (Frame.exchangeId o) →
     Frame.content o = JStr c → Db.without_nul c = true →
     ∃ m,
       messageRows (Relay.storage_state
         (Relay.step (Relay.Receive ws (Text (Value o)) now) sv).1)
         = messageRows (Relay.storage_state sv) ++ [m] ∧
       content m = JStr c).
Proof.
  split.
  - intros S storage sv ws me o now Hme Ht Hm. split; [done|].
    destruct (createMessage (chat_data o) now (Relay.storage_state sv))
      as [[m|] s'] eqn:Hc.
    + apply (step_receive_same _ _ me); [done|].
      by rewrite (on_message_chat_ok _ _ _ _ m s').
    + apply (step_receive_same _ _ me); [done|].
      by rewrite (on_message_chat_throw _ _ _ _ s').
  - intros sv ws o now sender receiver c Hme Hr Ht Hs H0 Hs4 Hrc Hrc4 Hx Hc Hnul.
    destruct (db_createMessage_typed (chat_data o) now (Relay.storage_state sv)
                sender receiver c) as (m & db' & Hm); try done.
    { by apply or_else_null_optional. }
    destruct (db_createMessage_ok _ _ _ _ _ Hm)
      as (Hrows & _ & _ & _ & _ & _ & Hcontent & _).
    exists m. split; [|by rewrite Hcontent].
    erewrite step_receive_same; [|done|].
    + exact Hrows.
    + rewrite (on_message_chat_ok _ _ _ _ m db'); [done|done| |done].
      unfold sender_matches. cbn [Relay.clientId]. rewrite Hs. simpl.
      rewrite bool_decide_true by done. by destruct (Z.eqb_spec sender 0).
Qed.

(** ** The status route *)
Section RouteProperties.

Context {S : Type} {storage : IStorage S}.
Import Routes Transition.

Lemma includes_valid st : st ∈ valid_statuses → includes (JStr st) = Some st.
Proof. intros. unfold includes. by rewrite bool_decide_true. Qed.

Lemma includes_invalid v :
  (∀ st, st ∈ valid_statuses → v ≠ JStr st) → includes v = None.
Proof.
  intros Hv. destruct v as [| | | |s]; try done. unfold includes.
  case_bool_decide; [|done]. by destruct (Hv s).
Qed.

(** C1, as the code has it.  The handler never looks at the current
    status of the exchange.  For an authenticated caller, an exchange
    that exists and one of the four valid statuses, the request is
    refused (403) exactly when the caller may not ask for that status
    (accepted and declined are for the provider, completed for the
    requester or the provider); otherwise [updateExchangeStatus] is
    called with the requested status and its result is the answer,
    whatever the current status is. *)
Theorem transition_depends_on_caller_only (req : request) now (s : S) caller e st :
  user req = Some caller →
  getExchangeById (params_id req) s = Ok (Some e) →
  body_status req = JStr st →
  st ∈ valid_statuses →
  patch_exchange_status req now s =
    if may_request st caller e
    then applied (updateExchangeStatus (params_id req) st now s)
    else (forbidden st, s).
Proof.
  intros Hu He Hb Hst. unfold patch_exchange_status.
  rewrite Hu, He, Hb, (includes_valid _ Hst). unfold may_request, forbidden, applied.
  unfold valid_statuses in Hst. rewrite !elem_of_cons, elem_of_nil in Hst.
  destruct Hst as [->|[->|[->|[->|[]]]]]; simpl;
    repeat (case_bool_decide; simpl); try done;
    try (destruct (Z.eqb_spec (providerId e) caller); simpl);
    try (destruct (Z.eqb_spec (requesterId e) caller); simpl);
    try done; try lia; try naive_solver.
Qed.

(** C7.  For an authenticated caller and an exchange that exists: a
    request for accepted or declined by a caller who is not the provider,
    and a request for completed by a caller who is neither the requester
    nor the provider, is answered 403 and the store is as it was; a
    request whose status is none of the four valid values is answered
    400, invalid status, and the store is as it was. *)
Theorem wrong_actor_and_invalid_status_are_rejected
    (req : request) now (s : S) caller e :
  user req = Some caller →
  getExchangeById (params_id req) s = Ok (Some e) →
  ((body_status req = JStr "accepted" ∨ body_status req = JStr "declined") →
   providerId e ≠ caller →
   patch_exchange_status req now s =
     (mkResponse 403
        (BMessage "Only the provider can accept or decline exchanges"), s)) ∧
  (body_status req = JStr "completed" →
   requesterId e ≠ caller → providerId e ≠ caller →
   patch_exchange_status req now s =
     (mkResponse 403
        (BMessage "Only participants can mark exchange as completed"), s)) ∧
  ((∀ st, st ∈ valid_statuses → body_status req ≠ JStr st) →
   patch_exchange_status req now s =
     (mkResponse 400 (BMessage "Invalid status"), s)).
Proof.
  intros Hu He. unfold patch_exchange_status. rewrite Hu, He. split_and!.
  - intros Hb Hp. apply Z.eqb_neq in Hp.
    by destruct Hb as [->| ->]; simpl; rewrite Hp.
  - intros -> Hr Hp. apply Z.eqb_neq in Hr, Hp. simpl. by rewrite Hr, Hp.
  - intros Hb. by rewrite includes_invalid.
Qed.

End RouteProperties.

(** ** The properties at work on the scenarios *)

(** The second identify of user 5 and the close of the first connection. *)
Lemma registry_lookup_is_latest_operation_witness :
  Relay.registry
    (Relay.run Scenario.superseded (Relay.start DatabaseStorage.new)).1
    !! "5"%string = None.
Proof.
  apply (proj2 registry_lookup_is_latest_operation
           DatabaseStorage.new 1 2 (JNum 5) "5"%string 10%Z 20%Z);
    [lia | reflexivity | reflexivity].
Defined.

(** A ping and a frame that is not JSON, on a connection that is open. *)
Lemma unknown_type_ignored_malformed_answered_witness :
  Relay.connections Scenario.one_open !! 1 = Some "unknown"%string ∧
  Relay.step (Relay.Receive 1 (Text (Value Scenario.ping)) 7) Scenario.one_open
    = (Scenario.one_open, []) ∧
  Relay.step (Relay.Receive 1 Unparseable 7) Scenario.one_open
    = (Scenario.one_open, [(1, process_error)]).
Proof.
  assert (Relay.connections Scenario.one_open !! 1 = Some "unknown"%string)
    as Hopen by reflexivity.
  split; [exact Hopen|].
  destruct (unknown_type_ignored_malformed_answered
              Scenario.one_open 1 "unknown"%string 7%Z Hopen) as (Hother & _ & Hbad).
  split; [|exact Hbad].
  apply Hother; discriminate.
Defined.


(** User 10 says hi to user 11, who is connected. *)
Lemma accepted_chat_is_persisted_acknowledged_and_pushed_witness :
  Relay.step (Relay.Receive 1 (Text (Value Scenario.hi)) 9) Scenario.two_users
    = (Relay.mkServer (Relay.connections Scenario.two_users)
         (Relay.registry Scenario.two_users) Scenario.hi_stored,
       [(1, sent_ack Scenario.hi_message); (2, Push Scenario.hi_message)]) ∧
  messageRows Scenario.hi_stored = [Scenario.hi_message] ∧
  read Scenario.hi_message = false.
Proof.
  destruct (accepted_chat_is_persisted_acknowledged_and_pushed
              Scenario.two_users 1 "10"%string Scenario.hi 9%Z
              Scenario.hi_message Scenario.hi_stored)
    as (key & Hkey & Hstep & Hrows & Hread);
    [reflexivity | reflexivity | reflexivity | reflexivity | reflexivity |].
  injection Hkey as <-. split; [exact Hstep|]. split; [exact Hrows | exact Hread].
Defined.

(** User 10 says hi while the database is out of reach. *)
Lemma persistence_failure_is_reported_witness :
  Relay.step (Relay.Receive 1 (Text (Value Scenario.hi)) 9)
    Scenario.two_users_db_down
  = (Scenario.two_users_db_down, [(1, process_error)]).
Proof.
  apply (persistence_failure_is_reported Scenario.two_users_db_down 1
           "10"%string Scenario.hi 9%Z (Db.mk [] 1 [] 1 false));
    reflexivity.
Defined.

(** User 10 sends the empty string: in memory and in the database. *)
Lemma chat_content_is_persisted_as_sent_witness :
  (Relay.step (Relay.Receive 1 (Text (Value Scenario.nothing)) 9)
     Scenario.two_users_mem).2
  = [(1, sent_ack (mkMessage 1 (JNum 10) (JNum 11) JNull (JStr "") false 9));
     (2, Push (mkMessage 1 (JNum 10) (JNum 11) JNull (JStr "") false 9))] ∧
  ∃ m,
    messageRows (Relay.storage_state
      (Relay.step (Relay.Receive 1 (Text (Value Scenario.nothing)) 9)
         Scenario.two_users).1)
      = messageRows (Relay.storage_state Scenario.two_users) ++ [m] ∧
    content m = JStr "".
Proof.
  destruct chat_content_is_persisted_as_sent as [Hrelay Hdb]. split.
  - destruct (Hrelay MemStorage.t _ Scenario.two_users_mem 1 "10"%string
                Scenario.nothing 9%Z) as [_ Hstep];
      [reflexivity | reflexivity | reflexivity |].
    rewrite Hstep. reflexivity.
  - apply (Hdb Scenario.two_users 1 Scenario.nothing 9%Z 10%Z 11%Z ""%string);
      [reflexivity | reflexivity | reflexivity | reflexivity | lia | reflexivity
      | reflexivity | reflexivity | by left | reflexivity | reflexivity].
Defined.

(** An identify frame with the userId 0. *)
Lemma identify_without_userId_is_ignored_witness :
  Relay.step (Relay.Receive 1 (identify_frame (JNum 0)) 7) Scenario.one_open
    = (Scenario.one_open, []).
Proof.
  apply (identify_without_userId_is_ignored Scenario.one_open 1 "unknown"%string);
    [reflexivity | reflexivity |].
  unfold falsy_values. simpl. do 2 apply list_elem_of_further. apply list_elem_of_here.
Defined.

(** Accepting the exchange 1 in both stores, and an exchange that does
    not exist. *)
Lemma updateExchangeStatus_sets_status_only_witness :
  (∃ e' this',
     MemStorage.updateExchangeStatus 1 "accepted" 20 Scenario.requested_mem
       = (Some e', this') ∧
     refreshed (Scenario.pending_exchange (Some 10%Z)) e' "accepted" 20) ∧
  (∃ e' this',
     DatabaseStorage.updateExchangeStatus 1 "accepted" 20 Scenario.requested
       = (Ok (Some e'), this') ∧
     refreshed (Scenario.pending_exchange None) e' "accepted" 20) ∧
  DatabaseStorage.updateExchangeStatus 2 "accepted" 20 Scenario.requested
    = (Ok None, Scenario.requested).
Proof.
  destruct (updateExchangeStatus_sets_status_only 1 "accepted" 20)
    as (Hmem & _ & Hdb & _).
  destruct (updateExchangeStatus_sets_status_only 2 "accepted" 20)
    as (_ & _ & _ & Habsent).
  split_and!.
  - destruct (Hmem Scenario.requested_mem (Scenario.pending_exchange (Some 10%Z)))
      as (e' & this' & Hup & Hre & _); [reflexivity|]. by exists e', this'.
  - destruct (Hdb Scenario.requested (Scenario.pending_exchange None))
      as (e' & this' & Hup & Hre & _); [reflexivity|]. by exists e', this'.
  - apply Habsent. reflexivity.
Defined.

(** The provider asks to accept the exchange it completed. *)
Lemma transition_depends_on_caller_only_witness :
  Routes.patch_exchange_status Scenario.accept_again 40 Scenario.completed
  = Transition.applied
      (updateExchangeStatus 1 "accepted" 40 Scenario.completed).
Proof.
  apply (transition_depends_on_caller_only Scenario.accept_again 40%Z
           Scenario.completed 2%Z
           (mkExchange 1 3 2 1 2 "completed" (Some 10%Z) (Some 30%Z)) "accepted"%string);
    [reflexivity | reflexivity | reflexivity |].
  unfold Routes.valid_statuses. apply list_elem_of_further, list_elem_of_here.
Defined.

(** The requester tries to accept; the provider asks for "cancelled". *)
Lemma wrong_actor_and_invalid_status_are_rejected_witness :
  Routes.patch_exchange_status Scenario.accept_by_requester 20 Scenario.requested
    = (Routes.mkResponse 403
         (Routes.BMessage "Only the provider can accept or decline exchanges"),
       Scenario.requested) ∧
  Routes.patch_exchange_status Scenario.cancel 20 Scenario.requested
    = (Routes.mkResponse 400 (Routes.BMessage "Invalid status"), Scenario.requested).
Proof.
  destruct (wrong_actor_and_invalid_status_are_rejected
              Scenario.accept_by_requester 20%Z Scenario.requested 3%Z
              (Scenario.pending_exchange None)) as (Hactor & _ & _);
    [reflexivity | reflexivity |].
  destruct (wrong_actor_and_invalid_status_are_rejected
              Scenario.cancel 20%Z Scenario.requested 2%Z
              (Scenario.pending_exchange None)) as (_ & _ & Hinvalid);
    [reflexivity | reflexivity |].
  split.
  - apply Hactor; [by left | discriminate].
  - apply Hinvalid. intros st Hst [= <-]. revert Hst.
    unfold Routes.valid_statuses. rewrite !elem_of_cons, elem_of_nil.
    intros [|[|[|[|[]]]]]; discriminate.
Defined.

(** ** Where the code departs from the specification *)

(** C1.  The exchange of [Scenario.completed] is completed; its provider
    asks for accepted.  The request is not refused: it is answered 200
    and the exchange is accepted again, in the database and in memory
    alike. *)
Lemma completed_exchange_is_reopened :
  status <$> exchangeRows Scenario.completed = ["completed"%string] ∧
  ¬ Transition.rejected_unchanged Scenario.accept_again 40 Scenario.completed ∧
  Routes.code
    (Routes.patch_exchange_status Scenario.accept_again 40 Scenario.completed).1
    = 200%Z ∧
  status <$> exchangeRows
    (Routes.patch_exchange_status Scenario.accept_again 40 Scenario.completed).2
    = ["accepted"%string] ∧
  status <$> exchangeRows Scenario.completed_mem = ["completed"%string] ∧
  ¬ Transition.rejected_unchanged Scenario.accept_again 40 Scenario.completed_mem ∧
  status <$> exchangeRows
    (Routes.patch_exchange_status Scenario.accept_again 40
       Scenario.completed_mem).2
    = ["accepted"%string].
Proof.
  split_and!; try reflexivity; intros [Hcode _]; by apply Hcode.
Qed.

(** C2.  User 5 identifies on connection 1 and then on connection 2;
    the lookup of "5" is the handle 2.  Connection 1 closes: the lookup
    is not the handle 2 any more, it is absent. *)
Lemma superseded_close_unregisters_successor :
  Relay.registry
    (Relay.run (take 4 Scenario.superseded) (Relay.start DatabaseStorage.new)).1
    !! "5"%string = Some 2 ∧
  Relay.registry
    (Relay.run Scenario.superseded (Relay.start DatabaseStorage.new)).1
    !! "5"%string ≠ Some 2.
Proof. split; [reflexivity|discriminate]. Qed.

(** C3.  A frame of type "ping" on an open connection: no error frame is
    sent to the connection, nothing is sent at all. *)
Lemma unknown_type_gets_no_error_frame :
  ¬ (∃ message,
       (1, Error message) ∈
         (Relay.step (Relay.Receive 1 (Text (Value Scenario.ping)) 7)
            Scenario.one_open).2).
Proof. intros [message Hin]. by apply elem_of_nil in Hin. Qed.

(** C9.  User 10, identified, sends a chat frame whose content is the
    empty string: it is stored, in the database and in memory alike, so
    not every stored message has a non-empty content. *)
Lemma empty_content_is_persisted :
  ¬ Forall (λ m, ∃ c, content m = JStr c ∧ c ≠ ""%string)
      (messageRows (Relay.storage_state
         (Relay.step (Relay.Receive 1 (Text (Value Scenario.nothing)) 9)
            Scenario.two_users).1)) ∧
  ¬ Forall (λ m, ∃ c, content m = JStr c ∧ c ≠ ""%string)
      (messageRows (Relay.storage_state
         (Relay.step (Relay.Receive 1 (Text (Value Scenario.nothing)) 9)
            Scenario.two_users_mem).1)).
Proof.
  split; intros Hall; apply Forall_cons in Hall as [(c & Hc & Hne) _];
    injection Hc as <-; by apply Hne.
Qed.


(** * Further properties of the code *)

(** ** The relay: identities, routing and the registry *)
Section RelayFurther.

Context {S : Type} {storage : IStorage S}.
Import Relay.

Implicit Types (sv : server S) (ws : conn) (o : Frame.t).

(** What a frame does to the connections and the registry. *)
Lemma step_receive_registry sv ws me message now :
  connections sv !! ws = Some me →
  connections (step (Receive ws message now) sv).1
    = <[ws := Identity.next_clientId me message]> (connections sv) ∧
  registry (step (Receive ws message now) sv).1
    = foldl Registry.apply_op (registry sv) (Registry.identify_ops me ws message).
Proof.
  intros Hme. cbn [step]. rewrite Hme. cbn [fst connections registry].
  by rewrite on_message_clientId, on_message_clients.
Qed.

(** X1.  An identify frame with a userId on a connection that had
    identified before moves the registration: the connection is
    acknowledged, its identity is the new userId, the new userId is
    registered with this handle and the old one is registered with
    nothing; the other users, the other connections and the store are as
    they were. *)
Theorem reidentify_moves_registration sv ws old o now new_id :
  connections sv !! ws = Some old →
  old ≠ "unknown"%string →
  Frame.type o = JStr "identify" →
  truthy (Frame.userId o) = true →
  toString (Frame.userId o) = Some new_id →
  ∃ sv',
    step (Receive ws (Text (Value o)) now) sv = (sv', [(ws, identified_ack)]) ∧
    connections sv' !! ws = Some new_id ∧
    registry sv' !! new_id = Some ws ∧
    (old ≠ new_id → registry sv' !! old = None) ∧
    (∀ u, u ≠ old → u ≠ new_id → registry sv' !! u = registry sv !! u) ∧
    (∀ c, c ≠ ws → connections sv' !! c = connections sv !! c) ∧
    storage_state sv' = storage_state sv.
Proof.
  intros Hme Hold Ht Hu Hs. eexists. split.
  { cbn [step]. rewrite Hme. erewrite on_message_identify by done.
    cbn. rewrite decide_True by done. reflexivity. }
  cbn [connections registry storage_state]. split_and!.
  - apply lookup_insert_eq.
  - apply lookup_insert_eq.
  - intros Hne. rewrite lookup_insert_ne by done. apply lookup_delete_eq.
  - intros u Hu1 Hu2. by rewrite lookup_insert_ne, lookup_delete_ne.
  - intros c Hc. by rewrite lookup_insert_ne.
  - done.
Qed.

Lemma sent_frame_target sv ws me message now c f :
  connections sv !! ws = Some me →
  (c, f) ∈ (step (Receive ws message now) sv).2 →
  c = ws ∨
  ∃ o m key,
    message = Text (Value o) ∧ Frame.type o = JStr "chat" ∧ f = Push m ∧
    toString (Frame.receiverId o) = Some key ∧ registry sv !! key = Some c.
Proof.
  intros Hme. cbn [step]. rewrite Hme. cbn [snd].
  destruct message as [|[|o]].
  - rewrite on_message_unparseable. cbn. rewrite list_elem_of_singleton.
    intros [= -> _]. by left.
  - rewrite on_message_null. cbn. rewrite list_elem_of_singleton.
    intros [= -> _]. by left.
  - destruct (decide (Frame.type o = JStr "identify")) as [Hi|Hi].
    { destruct (truthy (Frame.userId o)) eqn:Hu.
      - destruct (truthy_toString _ Hu) as [s Hs].
        rewrite (on_message_identify _ _ _ _ _ Hi Hu Hs). cbn.
        rewrite list_elem_of_singleton. intros [= -> _]. by left.
      - rewrite on_message_identify_falsy by done. cbn.
        by intros ?%elem_of_nil. }
    destruct (decide (Frame.type o = JStr "chat")) as [Hc|Hc].
    2:{ rewrite on_message_other by done. cbn. by intros ?%elem_of_nil. }
    destruct (sender_matches (Frame.senderId o) me) eqn:Hm.
    2:{ rewrite on_message_chat_mismatch by done. cbn.
        rewrite list_elem_of_singleton. intros [= -> _]. by left. }
    destruct (createMessage (chat_data o) now (storage_state sv))
      as [[m|] store'] eqn:Hcm.
    2:{ rewrite (on_message_chat_throw _ _ _ _ store') by done. cbn.
        rewrite list_elem_of_singleton. intros [= -> _]. by left. }
    rewrite (on_message_chat_ok _ _ _ _ m store') by done. cbn.
    rewrite elem_of_cons. intros [[= -> _]|Hin]; [by left|].
    destruct (toString (Frame.receiverId o)) as [key|] eqn:Hkey.
    + destruct (registry sv !! key) as [r|] eqn:Hr.
      * apply list_elem_of_singleton in Hin as [= -> ->].
        right. by exists o, m, key.
      * by apply elem_of_nil in Hin.
    + apply list_elem_of_singleton in Hin as [= -> _]. by left.
Qed.

(** A push goes to the handle registered for the receiver. *)
Lemma push_target sv ws me o now c m :
  connections sv !! ws = Some me →
  (c, Push m) ∈ (step (Receive ws (Text (Value o)) now) sv).2 →
  ∃ key,
    toString (Frame.receiverId o) = Some key ∧ registry sv !! key = Some c.
Proof.
  intros Hme. cbn [step]. rewrite Hme. cbn [snd].
  destruct (decide (Frame.type o = JStr "identify")) as [Hi|Hi].
  { destruct (truthy (Frame.userId o)) eqn:Hu.
    - destruct (truthy_toString _ Hu) as [s Hs].
      rewrite (on_message_identify _ _ _ _ _ Hi Hu Hs). cbn.
      rewrite list_elem_of_singleton. by intros [= _].
    - rewrite on_message_identify_falsy by done. cbn. by intros ?%elem_of_nil. }
  destruct (decide (Frame.type o = JStr "chat")) as [Hc|Hc].
  2:{ rewrite on_message_other by done. cbn. by intros ?%elem_of_nil. }
  destruct (sender_matches (Frame.senderId o) me) eqn:Hm.
  2:{ rewrite on_message_chat_mismatch by done. cbn.
      rewrite list_elem_of_singleton. by intros [= _]. }
  destruct (createMessage (chat_data o) now (storage_state sv))
    as [[m'|] store'] eqn:Hcm.
  2:{ rewrite (on_message_chat_throw _ _ _ _ store') by done. cbn.
      rewrite list_elem_of_singleton. by intros [= _]. }
  rewrite (on_message_chat_ok _ _ _ _ m' store') by done. cbn.
  rewrite elem_of_cons. intros [[= _]|Hin].
  destruct (toString (Frame.receiverId o)) as [key|] eqn:Hkey.
  - destruct (registry sv !! key) as [r|] eqn:Hr.
    + apply list_elem_of_singleton in Hin as [= -> _]. by exists key.
    + by apply elem_of_nil in Hin.
  - by apply list_elem_of_singleton in Hin as [= _].
Qed.

(** X2.  What the server sends, and to whom.  A new connection is sent
    the welcome frame and nothing else; a close sends nothing; and every
    frame sent in answer to a message goes to the connection it came
    from, except the push of a stored message, which goes to the handle
    registered for the receiver of the chat frame. *)
Theorem frames_go_to_sender_or_registered_receiver sv ws :
  (step (Connect ws) sv).2 = [(ws, welcome)] ∧
  (step (Close ws) sv).2 = [] ∧
  (∀ message now c f,
     (c, f) ∈ (step (Receive ws message now) sv).2 →
     c = ws ∨
     ∃ o m key,
       message = Text (Value o) ∧ Frame.type o = JStr "chat" ∧ f = Push m ∧
       toString (Frame.receiverId o) = Some key ∧ registry sv !! key = Some c).
Proof.
  split_and!.
  - by rewrite step_connect.
  - destruct (connections sv !! ws) as [me|] eqn:Hme.
    + by rewrite (step_close _ me).
    + cbn [step]. by rewrite Hme.
  - intros message now c f.
    destruct (connections sv !! ws) as [me|] eqn:Hme.
    + by apply sent_frame_target with me.
    + cbn [step]. rewrite Hme. by intros ?%elem_of_nil.
Qed.

(** X3.  On an open connection, a chat frame is always answered: the
    first frame sent goes to the sender and is the acknowledgment of the
    stored message, the error of the identity check or the error of the
    catch block. *)
Theorem chat_frame_is_answered sv ws me o now :
  connections sv !! ws = Some me →
  Frame.type o = JStr "chat" →
  ∃ f rest,
    (step (Receive ws (Text (Value o)) now) sv).2 = (ws, f) :: rest ∧
    (f = identity_error ∨ f = process_error ∨ ∃ m, f = sent_ack m).
Proof.
  intros Hme Hc. cbn [step]. rewrite Hme. cbn [snd].
  destruct (sender_matches (Frame.senderId o) me) eqn:Hm.
  - destruct (createMessage (chat_data o) now (storage_state sv))
      as [[m|] store'] eqn:Hcm.
    + rewrite (on_message_chat_ok _ _ _ _ m store') by done. cbn.
      eexists _, _. split; [done|]. right. right. by exists m.
    + rewrite (on_message_chat_throw _ _ _ _ store') by done. cbn.
      eexists _, _. split; [done|]. right. by left.
  - rewrite on_message_chat_mismatch by done. cbn.
    eexists _, _. split; [done|]. by left.
Qed.

(** X4.  Only an identify frame changes who is registered: any other
    frame, stored or refused, malformed or of an unknown type, leaves the
    identities of the connections and the registry as they were. *)
Theorem other_frames_keep_the_registry sv ws message now :
  (∀ o, message = Text (Value o) → Frame.type o ≠ JStr "identify") →
  connections (step (Receive ws message now) sv).1 = connections sv ∧
  registry (step (Receive ws message now) sv).1 = registry sv.
Proof.
  intros Hno. destruct (connections sv !! ws) as [me|] eqn:Hme.
  - destruct (step_receive_registry sv ws me message now Hme) as [-> ->].
    assert (Identity.next_clientId me message = me
            ∧ Registry.identify_ops me ws message = []) as [-> ->].
    { destruct message as [|[|o]]; try done. cbn.
      by rewrite !decide_False by by apply Hno. }
    split; [by apply insert_id|done].
  - cbn [step]. by rewrite Hme.
Qed.

End RelayFurther.

(** ** The registry holds open connections only *)
Section RegistrySound.

Context {S : Type} {storage : IStorage S}.
Import Relay Wellformed.

Implicit Types (sv : server S) (ws : conn) (o : Frame.t).

Lemma step_sound e sv :
  event_ok e sv →
  registry_sound sv ∧ registry sv !! "unknown"%string = None →
  registry_sound (step e sv).1 ∧ registry (step e sv).1 !! "unknown"%string = None.
Proof.
  intros Hok [Hsound Hunknown]. destruct e as [ws|ws message now|ws].
  - rewrite step_connect. cbn [fst registry]. split; [|done].
    intros u w Hw. cbn [connections registry] in *.
    rewrite lookup_insert_ne; [by apply Hsound|].
    intros <-. apply Hsound in Hw. simpl in Hok. congruence.
  - destruct (connections sv !! ws) as [me|] eqn:Hme.
    2:{ cbn [step]. by rewrite Hme. }
    destruct (step_receive_registry sv ws me message now Hme) as [Hc Hr].
    assert (Identity.next_clientId me message = me →
            Registry.identify_ops me ws message = [] →
            registry_sound (step (Receive ws message now) sv).1
            ∧ registry (step (Receive ws message now) sv).1 !! "unknown"%string = None)
      as Hsame.
    { intros Hn Hops. unfold registry_sound.
      rewrite Hr, Hc, Hn, Hops. cbn. by rewrite insert_id. }
    destruct message as [|[|o]]; [by apply Hsame..|].
    destruct (decide (Frame.type o = JStr "identify")) as [Ht|Ht];
      [|apply Hsame; cbn; by rewrite decide_False].
    destruct (truthy (Frame.userId o)) eqn:Hu;
      [|apply Hsame; cbn; by rewrite decide_True, Hu].
    clear Hsame. destruct (truthy_toString _ Hu) as [s Hs]. simpl in Hok.
    assert (s ≠ "unknown"%string) as Hname by (specialize (Hok Ht); congruence).
    assert (registry (step (Receive ws (Text (Value o)) now) sv).1
            = <[s := ws]> (delete me (registry sv))) as Hreg.
    { rewrite Hr. cbn. rewrite decide_True, Hu, Hs by done.
      case_decide as Hold; [by rewrite foldl_app|].
      rewrite Hold. cbn. by rewrite delete_id. }
    assert (connections (step (Receive ws (Text (Value o)) now) sv).1
            = <[ws := s]> (connections sv)) as Hconn.
    { rewrite Hc. cbn. by rewrite decide_True, Hu, Hs. }
    unfold registry_sound. rewrite Hreg, Hconn. split.
    + intros u w. destruct (decide (s = u)) as [<-|Hsu].
      { rewrite lookup_insert_eq. intros [= <-]. apply lookup_insert_eq. }
      rewrite lookup_insert_ne by done.
      destruct (decide (me = u)) as [<-|Hmu]; [by rewrite lookup_delete_eq|].
      rewrite lookup_delete_ne by done. intros Hw%Hsound.
      rewrite lookup_insert_ne; [done|]. intros <-. congruence.
    + rewrite lookup_insert_ne by done.
      destruct (decide (me = "unknown"%string)) as [->|Hm];
        [apply lookup_delete_eq|by rewrite lookup_delete_ne].
  - destruct (connections sv !! ws) as [me|] eqn:Hme.
    2:{ cbn [step]. by rewrite Hme. }
    rewrite (step_close _ me) by done. unfold registry_sound.
    cbn [fst connections registry]. split.
    + intros u w. destruct (decide (me = u)) as [<-|Hmu];
        [by rewrite lookup_delete_eq|].
      rewrite lookup_delete_ne by done. intros Hw%Hsound.
      rewrite lookup_delete_ne; [done|]. intros <-. congruence.
    + destruct (decide (me = "unknown"%string)) as [->|Hm];
        [apply lookup_delete_eq|by rewrite lookup_delete_ne].
Qed.

Lemma run_sound es sv :
  trace_ok es sv →
  registry_sound sv ∧ registry sv !! "unknown"%string = None →
  registry_sound (run es sv).1.
Proof.
  revert sv. induction es as [|e es IH]; intros sv Hok Hinv; [by destruct Hinv|].
  destruct Hok as [He Hes]. cbn [run fst]. apply IH; [done|]. by apply step_sound.
Qed.

(** X5.  When every connection event is for a handle that is not open
    and no identify frame carries a userId that reads "unknown", then
    after any sequence of events every handle in the registry is an open
    connection and is registered under the identity of that connection:
    the registry never holds a closed connection, nor a connection under
    a userId it has left. *)
Theorem registry_holds_open_connections (s : S) es :
  trace_ok es (start s) →
  registry_sound (run es (start s)).1.
Proof.
  intros Hok. apply run_sound; [done|]. split; [|done].
  intros u ws Hu. cbn in Hu. by rewrite lookup_empty in Hu.
Qed.

(** X6.  After such a sequence of events, the push of a message is only
    ever sent to a connection that is open and has identified as the
    receiver of the chat frame. *)
Theorem pushes_reach_open_connections (s : S) es ws me o now c m :
  trace_ok es (start s) →
  connections (run es (start s)).1 !! ws = Some me →
  (c, Push m) ∈ (step (Receive ws (Text (Value o)) now) (run es (start s)).1).2 →
  ∃ key,
    toString (Frame.receiverId o) = Some key ∧
    connections (run es (start s)).1 !! c = Some key.
Proof.
  intros Hok Hme Hin.
  assert (registry_sound (run es (start s)).1) as Hsound.
  { apply run_sound; [done|]. split; [|done].
    intros u w Hu. cbn in Hu. by rewrite lookup_empty in Hu. }
  destruct (push_target _ _ _ _ _ _ _ Hme Hin) as (key & Hkey & Hreg).
  exists key. split; [done|]. by apply Hsound.
Qed.

End RegistrySound.

(** ** Sorting by a key *)

Lemma insert_by_perm {A} (key : A → Z) x l : insert_by key x l ≡ₚ x :: l.
Proof.
  induction l as [|y l IH]; [done|]. cbn. case_match; [done|].
  rewrite IH. apply Permutation_swap.
Qed.

Lemma sort_by_perm {A} (key : A → Z) l : sort_by key l ≡ₚ l.
Proof.
  induction l as [|x l IH]; [done|]. cbn. by rewrite insert_by_perm, IH.
Qed.

Lemma elem_of_sort_by {A} (key : A → Z) l x : x ∈ sort_by key l ↔ x ∈ l.
Proof. by rewrite sort_by_perm. Qed.

Lemma insert_by_sorted {A} (key : A → Z) x l :
  sorted_by key l → sorted_by key (insert_by key x l).
Proof.
  unfold sorted_by. induction 1 as [|y l Hl IH Hy]; cbn.
  { repeat constructor. }
  destruct (Z.leb_spec (key x) (key y)) as [Hle|Hlt].
  - constructor; [by constructor|]. constructor; [done|].
    eapply Forall_impl; [exact Hy|]. intros z Hz. cbn in Hz. lia.
  - constructor; [done|]. rewrite insert_by_perm. constructor; [lia|done].
Qed.

Lemma sort_by_sorted {A} (key : A → Z) l : sorted_by key (sort_by key l).
Proof.
  induction l as [|x l IH]; [constructor|]. by apply insert_by_sorted.
Qed.

Lemma elem_of_values {A} (m : gmap Z A) x :
  x ∈ MemStorage.values m ↔ ∃ k, m !! k = Some x.
Proof.
  unfold MemStorage.values. rewrite list_elem_of_fmap. split.
  - intros ([k y] & -> & Hin). exists k.
    by apply elem_of_sort_by, elem_of_map_to_list in Hin.
  - intros [k Hk]. exists (k, x). split; [done|].
    by apply elem_of_sort_by, elem_of_map_to_list.
Qed.

Lemma values_perm {A} (m : gmap Z A) :
  MemStorage.values m ≡ₚ (map_to_list m).*2.
Proof. unfold MemStorage.values. by rewrite sort_by_perm. Qed.

(** ** The stores: reading, marking and identifiers *)

Lemma with_read_marked m : marked_read m (with_read m).
Proof. by repeat split. Qed.

Lemma fmap_if_absent {A} (p : A → bool) (f : A → A) (rows : list A) :
  filter (λ row, p row = true) rows = [] →
  (λ row, if p row then f row else row) <$> rows = rows.
Proof.
  induction rows as [|r rows IH]; [done|]. rewrite filter_cons, fmap_cons.
  destruct (p r) eqn:Hr.
  - by rewrite decide_True.
  - rewrite decide_False by done. intros Hrows. by rewrite IH.
Qed.

Lemma filter_fmap_if {A} (p q : A → bool) (f : A → A) (rows : list A) :
  (∀ r, q (f r) = q r) →
  filter (λ row, q row = true) ((λ row, if p row then f row else row) <$> rows)
  = (λ row, if p row then f row else row) <$> filter (λ row, q row = true) rows.
Proof.
  intros Hf. induction rows as [|r rows IH]; [done|].
  rewrite fmap_cons, !filter_cons, IH.
  assert (q (if p r then f r else r) = q r) as -> by (destruct (p r); by rewrite ?Hf).
  by case_decide.
Qed.

(** X7.  In both stores, [markMessageAsRead] on an identifier that is
    present returns the message marked as read, every other field as it
    was, and stores it; the other messages and the exchanges are
    untouched.  On an identifier that is absent it returns absent and the
    store is as it was. *)
Theorem markMessageAsRead_sets_read_only (id : Z) :
  (∀ this m,
     MemStorage.messages this !! id = Some m →
     ∃ m' this',
       MemStorage.markMessageAsRead id this = (Some m', this') ∧
       marked_read m m' ∧
       MemStorage.messages this' !! id = Some m' ∧
       (∀ id', id' ≠ id →
               MemStorage.messages this' !! id' = MemStorage.messages this !! id') ∧
       MemStorage.exchanges this' = MemStorage.exchanges this) ∧
  (∀ this,
     MemStorage.messages this !! id = None →
     MemStorage.markMessageAsRead id this = (None, this)) ∧
  (∀ this m,
     DatabaseStorage.getMessageById id this = Ok (Some m) →
     ∃ m' this',
       DatabaseStorage.markMessageAsRead id this = (Ok (Some m'), this') ∧
       marked_read m m' ∧
       DatabaseStorage.getMessageById id this' = Ok (Some m') ∧
       Forall2 (λ row row', if decide (msg_id row = id)
                            then marked_read row row' else row' = row)
         (Db.messages this) (Db.messages this') ∧
       Db.exchanges this' = Db.exchanges this) ∧
  (∀ this,
     DatabaseStorage.getMessageById id this = Ok None →
     DatabaseStorage.markMessageAsRead id this = (Ok None, this)).
Proof.
  split_and!.
  - intros this m Hm.
    unfold MemStorage.markMessageAsRead, MemStorage.getMessageById.
    rewrite Hm. eexists _, _. split; [done|].
    cbn [MemStorage.exchanges MemStorage.messages].
    split_and!; [apply with_read_marked|apply lookup_insert_eq| |done].
    intros id' Hid. by apply lookup_insert_ne.
  - intros this Hm.
    unfold MemStorage.markMessageAsRead, MemStorage.getMessageById.
    by rewrite Hm.
  - intros this m.
    unfold DatabaseStorage.getMessageById, DatabaseStorage.markMessageAsRead,
      Db.select_messages, Db.update_messages.
    destruct (Db.reachable this) eqn:Hr; [|done]. intros [= Hm].
    destruct (filter _ (Db.messages this)) as [|m0 rest] eqn:Hf; [done|].
    injection Hm as ->.
    assert (DatabaseStorage.eq_msg_id id m = true) as Hid.
    { assert (m ∈ filter (λ row, DatabaseStorage.eq_msg_id id row = true)
                (Db.messages this)) as Hin by (rewrite Hf; left).
      by apply list_elem_of_filter in Hin as [? _]. }
    eexists _, _. split; [reflexivity|].
    cbn [Db.exchanges Db.messages Db.reachable].
    rewrite filter_fmap_if, Hf by done. cbn [fmap list_fmap head]. rewrite Hid.
    split_and!; [apply with_read_marked|done| |done].
    apply Forall2_fmap_r, Forall_Forall2_diag, Forall_forall. intros row _.
    unfold DatabaseStorage.eq_msg_id. case_decide as Hrow; unfold compose; cbv beta.
    + rewrite (proj2 (Z.eqb_eq _ _) Hrow). apply with_read_marked.
    + by rewrite (proj2 (Z.eqb_neq _ _) Hrow).
  - intros this.
    unfold DatabaseStorage.getMessageById, DatabaseStorage.markMessageAsRead,
      Db.select_messages, Db.update_messages.
    destruct (Db.reachable this) eqn:Hr; [|done]. intros [= Hm].
    destruct (filter _ (Db.messages this)) as [|m0 rest] eqn:Hf; [|done].
    rewrite fmap_if_absent by done. simpl. destruct this; simpl in *. by subst.
Qed.

Lemma mem_new_keys : MemStorage.ids_are_keys MemStorage.new.
Proof. split; intros id x Hx; cbn in Hx; by rewrite lookup_empty in Hx. Qed.

Lemma mem_createExchange_keys d now this :
  MemStorage.ids_are_keys this →
  MemStorage.ids_are_keys (MemStorage.createExchange d now this).2.
Proof.
  intros [Kex Kmsg]. unfold MemStorage.createExchange.
  split; cbn [snd MemStorage.exchanges MemStorage.messages]; [|done].
  intros id x.
  destruct (decide (MemStorage.exchangeIdCounter this = id)) as [<-|Hne].
  - rewrite lookup_insert_eq. by intros [= <-].
  - rewrite lookup_insert_ne by done. apply Kex.
Qed.

Lemma mem_createMessage_keys d now this :
  MemStorage.ids_are_keys this →
  MemStorage.ids_are_keys (MemStorage.createMessage d now this).2.
Proof.
  intros [Kex Kmsg]. unfold MemStorage.createMessage.
  split; cbn [snd MemStorage.exchanges MemStorage.messages]; [done|].
  intros id x.
  destruct (decide (MemStorage.messageIdCounter this = id)) as [<-|Hne].
  - rewrite lookup_insert_eq. by intros [= <-].
  - rewrite lookup_insert_ne by done. apply Kmsg.
Qed.

(** X8.  In [MemStorage], from the constructor on, the counters are
    ahead of every identifier in use and every record is kept under its
    own identifier: each operation that writes keeps both. *)
Theorem MemStorage_keeps_its_identifiers :
  (MemStorage.counters_fresh MemStorage.new ∧
   MemStorage.ids_are_keys MemStorage.new) ∧
  (∀ this,
     MemStorage.counters_fresh this → MemStorage.ids_are_keys this →
     (∀ d now,
        MemStorage.counters_fresh (MemStorage.createExchange d now this).2 ∧
        MemStorage.ids_are_keys (MemStorage.createExchange d now this).2) ∧
     (∀ id st now,
        MemStorage.counters_fresh (MemStorage.updateExchangeStatus id st now this).2 ∧
        MemStorage.ids_are_keys (MemStorage.updateExchangeStatus id st now this).2) ∧
     (∀ d now,
        MemStorage.counters_fresh (MemStorage.createMessage d now this).2 ∧
        MemStorage.ids_are_keys (MemStorage.createMessage d now this).2) ∧
     (∀ id,
        MemStorage.counters_fresh (MemStorage.markMessageAsRead id this).2 ∧
        MemStorage.ids_are_keys (MemStorage.markMessageAsRead id this).2)).
Proof.
  split.
  { split; [apply mem_new_fresh|apply mem_new_keys]. }
  intros this Hfresh Hkeys. split_and!.
  - intros d now. split; [|by apply mem_createExchange_keys].
    destruct Hfresh as [Hex Hmsg].
    unfold MemStorage.createExchange, MemStorage.counters_fresh.
    cbn [snd MemStorage.exchanges MemStorage.messages
         MemStorage.exchangeIdCounter MemStorage.messageIdCounter].
    split; [|done]. intros id [x Hx].
    destruct (decide (MemStorage.exchangeIdCounter this = id)) as [<-|Hne]; [lia|].
    rewrite lookup_insert_ne in Hx by done.
    assert (id < MemStorage.exchangeIdCounter this)%Z by eauto. lia.
  - intros id st now. split; [by apply mem_updateExchangeStatus_fresh|].
    destruct Hkeys as [Kex Kmsg].
    unfold MemStorage.updateExchangeStatus, MemStorage.getExchangeById.
    destruct (MemStorage.exchanges this !! id) as [e|] eqn:He; [|done].
    split; cbn [snd MemStorage.exchanges MemStorage.messages]; [|done].
    intros id' x. destruct (decide (id = id')) as [<-|Hne].
    + rewrite lookup_insert_eq. intros [= <-]. cbn. by apply Kex.
    + rewrite lookup_insert_ne by done. apply Kex.
  - intros d now.
    split; [by apply mem_createMessage_adds_one|by apply mem_createMessage_keys].
  - intros id. destruct Hfresh as [Hex Hmsg], Hkeys as [Kex Kmsg].
    unfold MemStorage.markMessageAsRead, MemStorage.getMessageById.
    destruct (MemStorage.messages this !! id) as [m|] eqn:Hm; [|done].
    unfold MemStorage.counters_fresh, MemStorage.ids_are_keys.
    cbn [snd MemStorage.exchanges MemStorage.messages
         MemStorage.exchangeIdCounter MemStorage.messageIdCounter].
    split_and!; [done| |done|].
    + intros id' [x Hx]. destruct (decide (id = id')) as [<-|Hne]; [eauto|].
      rewrite lookup_insert_ne in Hx by done. eauto.
    + intros id' x. destruct (decide (id = id')) as [<-|Hne].
      * rewrite lookup_insert_eq. intros [= <-]. cbn. by apply Kmsg.
      * rewrite lookup_insert_ne by done. apply Kmsg.
Qed.

Lemma NoDup_snoc_fresh (ids : list Z) (next : Z) :
  NoDup ids → Forall (λ id, (id < next)%Z) ids → NoDup (ids ++ [next]).
Proof.
  intros Hnd Hlt. apply NoDup_app. split_and!; [done| |apply NoDup_singleton].
  intros id Hin ->%list_elem_of_singleton.
  rewrite Forall_forall in Hlt. specialize (Hlt _ Hin). lia.
Qed.

Lemma Forall_lt_succ {A} (key : A → Z) (rows : list A) (next : Z) :
  Forall (λ row, (key row < next)%Z) rows →
  Forall (λ row, (key row < next + 1)%Z) rows.
Proof. intros Hrows. eapply Forall_impl; [exact Hrows|]. intros row Hrow. cbn in *. lia. Qed.

Lemma fmap_key_if {A} (key : A → Z) (p : A → bool) (f : A → A) (rows : list A) :
  (∀ r, key (f r) = key r) →
  key <$> ((λ row, if p row then f row else row) <$> rows) = key <$> rows.
Proof.
  intros Hf. rewrite <-list_fmap_compose. apply list_fmap_ext.
  intros i r _. cbn. destruct (p r); by rewrite ?Hf.
Qed.

Lemma Forall_key_if {A} (key : A → Z) (p : A → bool) (f : A → A) (rows : list A)
    (P : Z → Prop) :
  (∀ r, key (f r) = key r) →
  Forall (λ row, P (key row)) rows →
  Forall (λ row, P (key row)) ((λ row, if p row then f row else row) <$> rows).
Proof.
  intros Hf Hrows. apply Forall_fmap. eapply Forall_impl; [exact Hrows|].
  intros r Hr. cbn. destruct (p r); by rewrite ?Hf.
Qed.

Lemma db_empty_fresh : Db.keys_fresh Db.empty.
Proof. unfold Db.keys_fresh. cbn. split_and!; constructor. Qed.

Lemma db_createExchange_fresh d now this :
  Db.keys_fresh this → Db.keys_fresh (DatabaseStorage.createExchange d now this).2.
Proof.
  intros (He & Hes & Hm & Hms).
  unfold DatabaseStorage.createExchange, Db.insert_exchange.
  destruct (Db.reachable this); [|done].
  destruct (_ && _); [|done]. unfold Db.keys_fresh.
  cbn [snd Db.exchanges Db.messages Db.exchanges_id_seq Db.messages_id_seq].
  split_and!; [| |done|done].
  - rewrite fmap_app. cbn. apply NoDup_snoc_fresh; [done|].
    by apply Forall_fmap.
  - apply Forall_app. split; [by apply Forall_lt_succ|].
    constructor; [cbn; lia|constructor].
Qed.

Lemma db_updateExchangeStatus_fresh id st now this :
  Db.keys_fresh this →
  Db.keys_fresh (DatabaseStorage.updateExchangeStatus id st now this).2.
Proof.
  intros (He & Hes & Hm & Hms).
  unfold DatabaseStorage.updateExchangeStatus, Db.update_exchanges.
  destruct (Db.reachable this); [|done]. unfold Db.keys_fresh.
  cbn [snd Db.exchanges Db.messages Db.exchanges_id_seq Db.messages_id_seq].
  split_and!; [| |done|done].
  - by rewrite (fmap_key_if ex_id).
  - by apply (Forall_key_if ex_id _ _ _ (λ k, k < Db.exchanges_id_seq this)%Z).
Qed.

Lemma db_createMessage_fresh d now this :
  Db.keys_fresh this → Db.keys_fresh (DatabaseStorage.createMessage d now this).2.
Proof.
  intros (He & Hes & Hm & Hms).
  destruct (DatabaseStorage.createMessage d now this) as [[m|] this'] eqn:Hc.
  2:{ by rewrite (db_createMessage_throw _ _ _ _ Hc). }
  destruct (db_createMessage_ok _ _ _ _ _ Hc) as (Hrows & Hex & _ & Hid & _).
  assert (Db.exchanges_id_seq this' = Db.exchanges_id_seq this
          ∧ Db.messages_id_seq this' = (Db.messages_id_seq this + 1)%Z) as [Hs1 Hs2].
  { revert Hc. unfold DatabaseStorage.createMessage, Db.insert_message.
    repeat case_match; try done. by intros [= _ <-]. }
  unfold Db.keys_fresh. cbn [snd]. rewrite Hrows, Hex, Hs1, Hs2.
  split_and!; [done|done| |].
  - rewrite fmap_app. cbn. rewrite Hid. apply NoDup_snoc_fresh; [done|].
    by apply Forall_fmap.
  - apply Forall_app. split; [by apply Forall_lt_succ|].
    constructor; [lia|constructor].
Qed.

Lemma db_markMessageAsRead_fresh id this :
  Db.keys_fresh this → Db.keys_fresh (DatabaseStorage.markMessageAsRead id this).2.
Proof.
  intros (He & Hes & Hm & Hms).
  unfold DatabaseStorage.markMessageAsRead, Db.update_messages.
  destruct (Db.reachable this); [|done]. unfold Db.keys_fresh.
  cbn [snd Db.exchanges Db.messages Db.exchanges_id_seq Db.messages_id_seq].
  split_and!; [done|done| |].
  - by rewrite (fmap_key_if msg_id).
  - by apply (Forall_key_if msg_id _ _ _ (λ k, k < Db.messages_id_seq this)%Z).
Qed.

(** X9.  In [DatabaseStorage], from the empty database on, no two rows
    of a table share an identifier and the sequences are ahead of the
    identifiers in use: each operation that writes keeps both, whether it
    succeeds or fails. *)
Theorem DatabaseStorage_keeps_its_keys :
  Db.keys_fresh DatabaseStorage.new ∧
  (∀ this,
     Db.keys_fresh this →
     (∀ d now, Db.keys_fresh (DatabaseStorage.createExchange d now this).2) ∧
     (∀ id st now,
        Db.keys_fresh (DatabaseStorage.updateExchangeStatus id st now this).2) ∧
     (∀ d now, Db.keys_fresh (DatabaseStorage.createMessage d now this).2) ∧
     (∀ id, Db.keys_fresh (DatabaseStorage.markMessageAsRead id this).2)).
Proof.
  split; [apply db_empty_fresh|]. intros this Hfresh. split_and!.
  - intros. by apply db_createExchange_fresh.
  - intros. by apply db_updateExchangeStatus_fresh.
  - intros. by apply db_createMessage_fresh.
  - intros. by apply db_markMessageAsRead_fresh.
Qed.

Lemma filter_key_fresh {A} (key : A → Z) (next : Z) (rows : list A) :
  Forall (λ row, (key row < next)%Z) rows →
  filter (λ row, (key row =? next)%Z = true) rows = [].
Proof.
  induction 1 as [|row rows Hrow _ IH]; [done|].
  rewrite filter_cons_False; [done|]. rewrite Z.eqb_eq. lia.
Qed.

Lemma head_filter_snoc {A} (P : A → Prop) `{∀ x, Decision (P x)} (rows : list A) x y :
  head (filter P rows) = Some y → head (filter P (rows ++ [x])) = Some y.
Proof.
  rewrite filter_app. by destruct (filter P rows).
Qed.

Lemma db_createMessage_reachable d now this m this' :
  DatabaseStorage.createMessage d now this = (Ok m, this') →
  Db.reachable this = true ∧ Db.reachable this' = true.
Proof.
  unfold DatabaseStorage.createMessage, Db.insert_message.
  repeat case_match; try done. by intros [= _ <-].
Qed.

(** The identifier of a message the database stored was free, and finds
    that message afterwards: as the only row, first, of that identifier. *)
Lemma db_createMessage_found d now this m this' :
  Db.keys_fresh this →
  DatabaseStorage.createMessage d now this = (Ok m, this') →
  DatabaseStorage.getMessageById (msg_id m) this = Ok None ∧
  DatabaseStorage.getMessageById (msg_id m) this' = Ok (Some m) ∧
  filter (λ row, DatabaseStorage.eq_msg_id (msg_id m) row = true) (Db.messages this')
    = [m].
Proof.
  intros (_ & _ & _ & Hms) Hc.
  destruct (db_createMessage_ok _ _ _ _ _ Hc) as (Hrows & _ & _ & Hid & _).
  destruct (db_createMessage_reachable _ _ _ _ _ Hc) as [Hr Hr'].
  assert (filter (λ row, DatabaseStorage.eq_msg_id (msg_id m) row = true)
            (Db.messages this') = [m]) as Hfilter.
  { unfold DatabaseStorage.eq_msg_id.
    rewrite Hrows, Hid, filter_app, (filter_key_fresh msg_id), app_nil_l by done.
    rewrite filter_cons_True; [done|]. rewrite Hid. apply Z.eqb_refl. }
  unfold DatabaseStorage.getMessageById, Db.select_messages.
  rewrite Hr, Hr', Hfilter. split_and!; [|done|done].
  unfold DatabaseStorage.eq_msg_id. by rewrite Hid, (filter_key_fresh msg_id).
Qed.

(** X10.  A message that was created can be read back under its
    identifier, which was not in use before, and the messages that were
    there can still be read back under theirs: in memory when the
    counters are ahead, in the database when the keys are fresh. *)
Theorem createMessage_then_getMessageById (d : InsertMessage) (now : Z) :
  (∀ this,
     MemStorage.counters_fresh this →
     MemStorage.getMessageById
       (msg_id (MemStorage.createMessage d now this).1) this = None ∧
     MemStorage.getMessageById
       (msg_id (MemStorage.createMessage d now this).1)
       (MemStorage.createMessage d now this).2
       = Some (MemStorage.createMessage d now this).1 ∧
     (∀ id m,
        MemStorage.getMessageById id this = Some m →
        MemStorage.getMessageById id (MemStorage.createMessage d now this).2
          = Some m)) ∧
  (∀ this m this',
     Db.keys_fresh this →
     DatabaseStorage.createMessage d now this = (Ok m, this') →
     DatabaseStorage.getMessageById (msg_id m) this = Ok None ∧
     DatabaseStorage.getMessageById (msg_id m) this' = Ok (Some m) ∧
     (∀ id m0,
        DatabaseStorage.getMessageById id this = Ok (Some m0) →
        DatabaseStorage.getMessageById id this' = Ok (Some m0))).
Proof.
  split.
  - intros this [_ Hmsg]. unfold MemStorage.createMessage, MemStorage.getMessageById.
    cbn [fst snd msg_id MemStorage.messages].
    assert (MemStorage.messages this !! MemStorage.messageIdCounter this = None)
      as Hfree.
    { apply eq_None_not_Some. intros Hsome%Hmsg. lia. }
    split_and!; [done|apply lookup_insert_eq|].
    intros id m Hm. rewrite lookup_insert_ne; [done|]. intros <-. congruence.
  - intros this m this' Hfresh Hc.
    destruct (db_createMessage_found _ _ _ _ _ Hfresh Hc) as (Hnew & Hfound & _).
    split_and!; [done|done|].
    pose proof Hfresh as (_ & _ & _ & Hms).
    destruct (db_createMessage_ok _ _ _ _ _ Hc) as (Hrows & _).
    destruct (db_createMessage_reachable _ _ _ _ _ Hc) as [Hr Hr'].
    unfold DatabaseStorage.getMessageById, Db.select_messages. rewrite Hr, Hr', Hrows.
    intros id m0 [= Hm0]. f_equal. by apply head_filter_snoc.
Qed.

(** X11.  A new exchange is pending, between the requester and the
    provider it was given; it can be read back under its identifier,
    which was not in use before, and the exchanges that were there can
    still be read back under theirs. *)
Theorem createExchange_then_getExchangeById (d : InsertExchange) (now : Z) :
  (∀ this,
     MemStorage.counters_fresh this →
     ∃ e this',
       MemStorage.createExchange d now this = (e, this') ∧
       status e = "pending"%string ∧
       requesterId e = ie_requesterId d ∧ providerId e = ie_providerId d ∧
       requestedSkillId e = ie_requestedSkillId d ∧
       offeredSkillId e = ie_offeredSkillId d ∧
       MemStorage.getExchangeById (ex_id e) this = None ∧
       MemStorage.getExchangeById (ex_id e) this' = Some e ∧
       (∀ id e0,
          MemStorage.getExchangeById id this = Some e0 →
          MemStorage.getExchangeById id this' = Some e0)) ∧
  (∀ this e this',
     Db.keys_fresh this →
     DatabaseStorage.createExchange d now this = (Ok e, this') →
     status e = "pending"%string ∧
     requesterId e = ie_requesterId d ∧ providerId e = ie_providerId d ∧
     requestedSkillId e = ie_requestedSkillId d ∧
     offeredSkillId e = ie_offeredSkillId d ∧
     DatabaseStorage.getExchangeById (ex_id e) this = Ok None ∧
     DatabaseStorage.getExchangeById (ex_id e) this' = Ok (Some e) ∧
     (∀ id e0,
        DatabaseStorage.getExchangeById id this = Ok (Some e0) →
        DatabaseStorage.getExchangeById id this' = Ok (Some e0))).
Proof.
  split.
  - intros this [Hex _]. eexists _, _. split; [reflexivity|].
    unfold MemStorage.getExchangeById. cbn [status requesterId providerId
      requestedSkillId offeredSkillId ex_id MemStorage.exchanges].
    assert (MemStorage.exchanges this !! MemStorage.exchangeIdCounter this = None)
      as Hfree.
    { apply eq_None_not_Some. intros Hsome%Hex. lia. }
    split_and!; try done; [apply lookup_insert_eq|].
    intros id e0 He0. rewrite lookup_insert_ne; [done|]. intros <-. congruence.
  - intros this e this' (_ & Hes & _ & _).
    unfold DatabaseStorage.createExchange, Db.insert_exchange.
    destruct (Db.reachable this) eqn:Hr; [|done].
    destruct (_ && _); [|done]. intros [= <- <-].
    unfold DatabaseStorage.getExchangeById, Db.select_exchanges,
      DatabaseStorage.eq_id.
    cbn [status requesterId providerId requestedSkillId offeredSkillId ex_id
         Db.exchanges Db.reachable]. rewrite Hr.
    split_and!; try done.
    + by rewrite (filter_key_fresh ex_id).
    + rewrite filter_app, (filter_key_fresh ex_id), app_nil_l by done.
      rewrite filter_cons_True; [done|]. apply Z.eqb_refl.
    + intros id e0 [= He0]. f_equal. by apply head_filter_snoc.
Qed.

(** ** The stores: conversations and unread messages *)

(** X12.  The messages of an exchange come in the order of their
    creation, and they are exactly the stored messages of that exchange,
    each as many times as it is stored; the database answers so when it
    can be reached and fails otherwise. *)
Theorem getMessagesByExchangeId_sorted_and_exact (id : Z) :
  (∀ this,
     sorted_by createdAt (MemStorage.getMessagesByExchangeId id this) ∧
     MemStorage.getMessagesByExchangeId id this
       ≡ₚ filter (λ m, exchangeId m = JNum id) (MemStorage.getMessages this)) ∧
  (∀ this,
     Db.reachable this = true →
     ∃ l,
       DatabaseStorage.getMessagesByExchangeId id this = Ok l ∧
       sorted_by createdAt l ∧
       l ≡ₚ filter (λ m, exchangeId m = JNum id) (Db.messages this)) ∧
  (∀ this,
     Db.reachable this = false →
     DatabaseStorage.getMessagesByExchangeId id this = Throw).
Proof.
  split_and!.
  - intros this. unfold MemStorage.getMessagesByExchangeId, MemStorage.getMessages.
    split; [apply sort_by_sorted|]. by rewrite sort_by_perm, values_perm.
  - intros this Hr.
    unfold DatabaseStorage.getMessagesByExchangeId, Db.select_messages.
    rewrite Hr. eexists. split; [done|]. split; [apply sort_by_sorted|].
    rewrite sort_by_perm. erewrite list_filter_iff; [done|].
    intros m. cbn. by rewrite bool_decide_eq_true.
  - intros this Hr.
    unfold DatabaseStorage.getMessagesByExchangeId, Db.select_messages.
    by rewrite Hr.
Qed.

(** X13.  A conversation is the same from both sides: the messages
    between two users do not depend on which of the two asks, and every
    one of them was sent by one of the two to the other. *)
Theorem getMessagesBetweenUsers_symmetric (a b : Z) :
  (∀ this,
     MemStorage.getMessagesBetweenUsers a b this
       = MemStorage.getMessagesBetweenUsers b a this ∧
     ∀ m, m ∈ MemStorage.getMessagesBetweenUsers a b this →
          (senderId m = JNum a ∧ receiverId m = JNum b) ∨
          (senderId m = JNum b ∧ receiverId m = JNum a)) ∧
  (∀ this,
     DatabaseStorage.getMessagesBetweenUsers a b this
       = DatabaseStorage.getMessagesBetweenUsers b a this ∧
     ∀ l m, DatabaseStorage.getMessagesBetweenUsers a b this = Ok l → m ∈ l →
            (senderId m = JNum a ∧ receiverId m = JNum b) ∨
            (senderId m = JNum b ∧ receiverId m = JNum a)).
Proof.
  split.
  - intros this. unfold MemStorage.getMessagesBetweenUsers. split.
    + f_equal. apply list_filter_iff. intros m. tauto.
    + intros m Hm. apply elem_of_sort_by, list_elem_of_filter in Hm. tauto.
  - intros this.
    unfold DatabaseStorage.getMessagesBetweenUsers, Db.select_messages. split.
    + destruct (Db.reachable this); [|done]. do 2 f_equal.
      apply list_filter_iff. intros m. cbn. by rewrite orb_comm.
    + intros l m. destruct (Db.reachable this); [|done]. intros [= <-] Hm.
      apply elem_of_sort_by, list_elem_of_filter in Hm as [Hm _]. cbn in Hm.
      apply orb_prop in Hm as [Hm|Hm]; apply andb_prop in Hm as [H1 H2];
        apply bool_decide_eq_true in H1, H2; tauto.
Qed.

Lemma db_unread_elem u this l m :
  DatabaseStorage.getUnreadMessagesByUserId u this = Ok l →
  m ∈ l ↔ m ∈ Db.messages this ∧ receiverId m = JNum u ∧ read m = false.
Proof.
  unfold DatabaseStorage.getUnreadMessagesByUserId, Db.select_messages.
  destruct (Db.reachable this); [|done]. intros [= <-].
  rewrite elem_of_sort_by, list_elem_of_filter. cbn.
  rewrite andb_true_iff, bool_decide_eq_true, negb_true_iff. tauto.
Qed.

Lemma mem_unread_elem u this m :
  m ∈ MemStorage.getUnreadMessagesByUserId u this ↔
  (∃ k, MemStorage.messages this !! k = Some m) ∧
  receiverId m = JNum u ∧ read m = false.
Proof.
  unfold MemStorage.getUnreadMessagesByUserId.
  rewrite list_elem_of_filter, elem_of_values. tauto.
Qed.

Lemma db_unread_after_mark id u this l l' m' :
  DatabaseStorage.getUnreadMessagesByUserId u this = Ok l →
  DatabaseStorage.getUnreadMessagesByUserId u
    (DatabaseStorage.markMessageAsRead id this).2 = Ok l' →
  m' ∈ l' ↔ m' ∈ l ∧ msg_id m' ≠ id.
Proof.
  intros Hl Hl'.
  rewrite (db_unread_elem _ _ _ _ Hl), (db_unread_elem _ _ _ _ Hl').
  assert (Db.reachable this = true) as Hr.
  { revert Hl. unfold DatabaseStorage.getUnreadMessagesByUserId, Db.select_messages.
    by destruct (Db.reachable this). }
  unfold DatabaseStorage.markMessageAsRead, Db.update_messages.
  rewrite Hr. cbn [snd Db.messages]. rewrite list_elem_of_fmap.
  unfold DatabaseStorage.eq_msg_id. split.
  - intros ((row & -> & Hrow) & Hrecv & Hread).
    destruct (Z.eqb_spec (msg_id row) id) as [Heq|Hne]; [done|]. tauto.
  - intros ((Hrow & Hrecv & Hread) & Hid). split; [|done].
    exists m'. split; [|done]. by rewrite (proj2 (Z.eqb_neq _ _) Hid).
Qed.

(** X14.  After a message is marked as read, the unread messages of a
    user are the ones that were unread before, less those of that
    identifier: in memory when the records are kept under their
    identifiers, in the database always. *)
Theorem marked_message_leaves_unread (id u : Z) :
  (∀ this m m',
     MemStorage.ids_are_keys this →
     MemStorage.messages this !! id = Some m →
     m' ∈ MemStorage.getUnreadMessagesByUserId u
            (MemStorage.markMessageAsRead id this).2
     ↔ m' ∈ MemStorage.getUnreadMessagesByUserId u this ∧ msg_id m' ≠ id) ∧
  (∀ this l l' m',
     DatabaseStorage.getUnreadMessagesByUserId u this = Ok l →
     DatabaseStorage.getUnreadMessagesByUserId u
       (DatabaseStorage.markMessageAsRead id this).2 = Ok l' →
     m' ∈ l' ↔ m' ∈ l ∧ msg_id m' ≠ id).
Proof.
  split.
  - intros this m m' [_ Kmsg] Hm. rewrite !mem_unread_elem.
    unfold MemStorage.markMessageAsRead, MemStorage.getMessageById.
    rewrite Hm. cbn [snd MemStorage.messages]. split.
    + intros ([k Hk] & Hrecv & Hread). destruct (decide (id = k)) as [<-|Hne].
      * rewrite lookup_insert_eq in Hk. injection Hk as <-. done.
      * rewrite lookup_insert_ne in Hk by done.
        split; [eauto|]. apply Kmsg in Hk. congruence.
    + intros (([k Hk] & Hrecv & Hread) & Hid). split; [|done].
      exists k. rewrite lookup_insert_ne; [done|]. intros <-.
      apply Kmsg in Hk. congruence.
  - intros this l l' m'. apply db_unread_after_mark.
Qed.

(** X15.  A new exchange shows up in the exchanges of its requester and
    of its provider, and in nobody else's: the exchanges of a user after
    [createExchange] are the ones before, and the new one when the user
    is one of the two.  The database gives no order to that list (the
    statement has no [ORDER BY]): what it returns afterwards is, in some
    order, what it returned before, with the new exchange once when the
    user is one of the two. *)
Theorem new_exchange_is_listed_for_its_participants (d : InsertExchange) (now u : Z) :
  (∀ this e',
     MemStorage.counters_fresh this →
     e' ∈ MemStorage.getExchangesByUserId u (MemStorage.createExchange d now this).2
     ↔ e' ∈ MemStorage.getExchangesByUserId u this
       ∨ (e' = (MemStorage.createExchange d now this).1
          ∧ (ie_requesterId d = u ∨ ie_providerId d = u))) ∧
  (∀ this e this' l,
     DatabaseStorage.createExchange d now this = (Ok e, this') →
     DatabaseStorage.getExchangesByUserId u this = Ok l →
     ∃ l',
       DatabaseStorage.getExchangesByUserId u this' = Ok l' ∧
       l' ≡ₚ if decide (ie_requesterId d = u ∨ ie_providerId d = u)
             then e :: l else l).
Proof.
  split.
  - intros this e' [Hex _].
    assert (MemStorage.exchanges this !! MemStorage.exchangeIdCounter this = None)
      as Hfree.
    { apply eq_None_not_Some. intros Hsome%Hex. lia. }
    unfold MemStorage.getExchangesByUserId, MemStorage.createExchange.
    cbn [fst snd MemStorage.exchanges].
    rewrite !list_elem_of_filter, !elem_of_values. split.
    + intros (Hu & k & Hk).
      destruct (decide (MemStorage.exchangeIdCounter this = k)) as [<-|Hne].
      * rewrite lookup_insert_eq in Hk. injection Hk as <-. right. by split.
      * rewrite lookup_insert_ne in Hk by done. left. eauto.
    + intros [(Hu & k & Hk)|[-> Hu]].
      * split; [done|]. exists k. rewrite lookup_insert_ne; [done|].
        intros <-. congruence.
      * split; [done|]. eexists. apply lookup_insert_eq.
  - intros this e this' l.
    unfold DatabaseStorage.createExchange, Db.insert_exchange,
      DatabaseStorage.getExchangesByUserId, Db.select_exchanges.
    destruct (Db.reachable this) eqn:Hr; [|done].
    destruct (_ && _); [|done]. intros [= <- <-] [= <-].
    cbn [Db.reachable Db.exchanges]. eexists. split; [reflexivity|].
    rewrite filter_app, filter_cons, filter_nil. cbn [requesterId providerId].
    destruct (Z.eqb_spec (ie_requesterId d) u), (Z.eqb_spec (ie_providerId d) u);
      cbn; repeat (destruct (decide _)); try (exfalso; tauto);
      rewrite ?app_nil_r; try done; by rewrite Permutation_app_comm.
Qed.

(** X16.  An exchange whose status is updated moves between the lists by
    status: the exchanges of a status afterwards are those of that status
    before under another identifier, and the updated exchange when that
    is the status it was given. *)
Theorem updated_exchange_moves_between_statuses (id : Z) (st : string) (now : Z)
    (listed : string) :
  (∀ this e x,
     MemStorage.ids_are_keys this →
     MemStorage.getExchangeById id this = Some e →
     x ∈ MemStorage.getExchangesByStatus listed
           (MemStorage.updateExchangeStatus id st now this).2
     ↔ (x ∈ MemStorage.getExchangesByStatus listed this ∧ ex_id x ≠ id)
       ∨ (x = with_status e st now ∧ st = listed)) ∧
  (∀ this l l' x,
     DatabaseStorage.getExchangesByStatus listed this = Ok l →
     DatabaseStorage.getExchangesByStatus listed
       (DatabaseStorage.updateExchangeStatus id st now this).2 = Ok l' →
     x ∈ l'
     ↔ (x ∈ l ∧ ex_id x ≠ id)
       ∨ (∃ row, row ∈ Db.exchanges this ∧ ex_id row = id
                 ∧ x = with_status row st now ∧ st = listed)).
Proof.
  split.
  - intros this e x [Kex _] He.
    unfold MemStorage.getExchangesByStatus, MemStorage.updateExchangeStatus.
    rewrite He. unfold MemStorage.getExchangeById in He.
    cbn [snd MemStorage.exchanges].
    rewrite !list_elem_of_filter, !elem_of_values. split.
    + intros (Hst & k & Hk). destruct (decide (id = k)) as [<-|Hne].
      * rewrite lookup_insert_eq in Hk. injection Hk as <-. by right.
      * rewrite lookup_insert_ne in Hk by done. left.
        split; [eauto|]. apply Kex in Hk. congruence.
    + intros [((Hst & k & Hk) & Hid)|[-> <-]].
      * split; [done|]. exists k. rewrite lookup_insert_ne; [done|].
        intros <-. apply Kex in Hk. congruence.
      * split; [done|]. exists id. apply lookup_insert_eq.
  - intros this l l' x.
    unfold DatabaseStorage.getExchangesByStatus, Db.select_exchanges,
      DatabaseStorage.updateExchangeStatus, Db.update_exchanges.
    destruct (Db.reachable this) eqn:Hr; [|done]. cbn [snd Db.reachable Db.exchanges].
    intros [= <-] [= <-].
    rewrite !list_elem_of_filter, list_elem_of_fmap, !String.eqb_eq.
    unfold DatabaseStorage.eq_id. split.
    + intros (Hst & row & -> & Hrow).
      destruct (Z.eqb_spec (ex_id row) id) as [Heq|Hne].
      * right. by exists row.
      * left. done.
    + intros [((Hst & Hx) & Hid)|(row & Hrow & Hid & -> & <-)].
      * split; [done|]. exists x. split; [|done].
        by rewrite (proj2 (Z.eqb_neq _ _) Hid).
      * split; [done|]. exists row. split; [|done].
        by rewrite (proj2 (Z.eqb_eq _ _) Hid).
Qed.

(** ** The message routes *)
Section MessageRouteProperties.

Context {S : Type} {queries : IStorageQueries S}.
Import MessageRoutes.

(** X17.  Only its receiver can mark a message as read.  For an
    authenticated caller and a message that exists, the request of a
    caller who is not the receiver is answered 403 and the store is as it
    was; the request of the receiver is answered with what
    [markMessageAsRead] returns (200), or 400 when that call fails.  A
    request without a session is answered 401 and a request for a message
    that does not exist 404, the store as it was. *)
Theorem only_the_receiver_marks_as_read (req : request) (s : S) :
  (user req = None →
   patch_message_read req s = (mkResponse 401 (BMessage "Unauthorized"), s)) ∧
  (∀ caller,
     user req = Some caller →
     getMessageById (params_id req) s = Ok None →
     patch_message_read req s
       = (mkResponse 404 (BMessage "Message not found"), s)) ∧
  (∀ caller m,
     user req = Some caller →
     getMessageById (params_id req) s = Ok (Some m) →
     receiverId m ≠ JNum caller →
     patch_message_read req s
       = (mkResponse 403 (BMessage "Only the receiver can mark message as read"),
          s)) ∧
  (∀ caller m,
     user req = Some caller →
     getMessageById (params_id req) s = Ok (Some m) →
     receiverId m = JNum caller →
     patch_message_read req s
       = match markMessageAsRead (params_id req) s with
         | (Ok updatedMessage, s') =>
             (mkResponse 200 (BUpdated updatedMessage), s')
         | (Throw, s') =>
             (mkResponse 400 (BFailure "Failed to mark message as read"), s')
         end).
Proof.
  unfold patch_message_read. split_and!.
  - by intros ->.
  - by intros caller -> ->.
  - intros caller m -> -> Hm. by rewrite bool_decide_true.
  - intros caller m -> -> Hm. by rewrite bool_decide_false by (by intros []).
Qed.

End MessageRouteProperties.

(** ** The status route: what it does not check *)
Section StatusRouteFurther.

Context {S : Type} {storage : IStorage S}.
Import Routes.

(** X18.  The checks come in a fixed order.  Without a session the
    answer is 401 whatever the request names and whether or not the
    store can be read; with a session, an exchange that does not exist is
    answered 404 whatever the status asked for, valid or not; and a store
    that cannot be read is answered 400.  The store is as it was in the
    three cases. *)
Theorem status_route_checks_in_order (req : request) now (s : S) :
  (user req = None →
   patch_exchange_status req now s
     = (mkResponse 401 (BMessage "Unauthorized"), s)) ∧
  (∀ caller,
     user req = Some caller →
     getExchangeById (params_id req) s = Ok None →
     patch_exchange_status req now s
       = (mkResponse 404 (BMessage "Exchange not found"), s)) ∧
  (∀ caller,
     user req = Some caller →
     getExchangeById (params_id req) s = Throw →
     patch_exchange_status req now s
       = (mkResponse 400 (BFailure "Failed to update exchange status"), s)).
Proof.
  unfold patch_exchange_status. split_and!.
  - by intros ->.
  - by intros caller -> ->.
  - by intros caller -> ->.
Qed.

End StatusRouteFurther.

(** X19.  The status route checks the caller for accepted, declined and
    completed only: a request for pending by any authenticated caller,
    participant of the exchange or not, on any exchange that exists, is
    handed to [updateExchangeStatus] and answered with its result.  In
    memory the answer is 200 with the exchange set back to pending, its
    [updatedAt] refreshed, and that is the exchange read back under the
    identifier afterwards, whatever its status was. *)
Theorem anyone_may_request_pending :
  (∀ (S : Type) (storage : IStorage S) (req : Routes.request) now (s : S) caller e,
     Routes.user req = Some caller →
     getExchangeById (Routes.params_id req) s = Ok (Some e) →
     Routes.body_status req = JStr "pending" →
     Routes.patch_exchange_status req now s
       = Transition.applied
           (updateExchangeStatus (Routes.params_id req) "pending" now s)) ∧
  (∀ (this : MemStorage.t) (req : Routes.request) now caller e,
     Routes.user req = Some caller →
     MemStorage.getExchangeById (Routes.params_id req) this = Some e →
     Routes.body_status req = JStr "pending" →
     ∃ this',
       Routes.patch_exchange_status req now this
         = (Routes.mkResponse 200
              (Routes.BExchange (Some (with_status e "pending" now))), this') ∧
       MemStorage.getExchangeById (Routes.params_id req) this'
         = Some (with_status e "pending" now)).
Proof.
  split.
  - intros S storage req now s caller e Hu He Hb.
    unfold Routes.patch_exchange_status. by rewrite Hu, He, Hb.
  - intros this req now caller e Hu He Hb.
    unfold Routes.patch_exchange_status. rewrite Hu, Hb. cbn. rewrite He. cbn.
    unfold MemStorage.updateExchangeStatus. rewrite He. cbn.
    eexists. split; [reflexivity|].
    unfold MemStorage.getExchangeById. cbn. apply lookup_insert_eq.
Qed.

(** ** From the relay to the message routes *)

Lemma key_determines_row {A} (key : A → Z) (rows : list A) x y :
  NoDup (key <$> rows) → x ∈ rows → y ∈ rows → key x = key y → x = y.
Proof.
  induction rows as [|r rows IH]; [by intros _ ?%elem_of_nil|].
  rewrite fmap_cons, NoDup_cons, !elem_of_cons.
  intros [Hr Hnd] [->|Hx] [->|Hy] Hk; [done| | |by apply IH].
  - exfalso. apply Hr. rewrite Hk. apply list_elem_of_fmap. eauto.
  - exfalso. apply Hr. rewrite <-Hk. apply list_elem_of_fmap. eauto.
Qed.

Section StoreAndForward.

Import Relay.

Implicit Types (sv : server DatabaseStorage.t) (ws : conn) (o : Frame.t).

(** X20.  A message the relay accepted waits in the database for its
    receiver.  After a chat frame from the identified sender is stored,
    the receiver it names is a user whose unread messages, as
    [GET /api/messages/unread] answers them, hold that message; nobody
    but that user can mark it as read (403, the database as it was); and
    once that user has marked it through [PATCH /api/messages/:id/read],
    which answers with the message marked as read, the unread messages of
    that user are the ones before less that message. *)
Theorem stored_message_waits_for_its_receiver sv ws me o now m db' :
  Db.keys_fresh (storage_state sv) →
  connections sv !! ws = Some me →
  Frame.type o = JStr "chat" →
  truthy (Frame.senderId o) = true →
  toString (Frame.senderId o) = Some me →
  createMessage (chat_data o) now (storage_state sv) = (Ok m, db') →
  ∃ r unread db'' unread',
    Frame.receiverId o = JNum r ∧
    storage_state (step (Receive ws (Text (Value o)) now) sv).1 = db' ∧
    MessageRoutes.get_unread_messages
      (MessageRoutes.mkRequest (Some r) (msg_id m)) db'
      = MessageRoutes.mkResponse 200 (MessageRoutes.BList unread) ∧
    m ∈ unread ∧
    (∀ other,
       other ≠ r →
       MessageRoutes.patch_message_read
         (MessageRoutes.mkRequest (Some other) (msg_id m)) db'
       = (MessageRoutes.mkResponse 403
            (MessageRoutes.BMessage "Only the receiver can mark message as read"),
          db')) ∧
    MessageRoutes.patch_message_read
      (MessageRoutes.mkRequest (Some r) (msg_id m)) db'
      = (MessageRoutes.mkResponse 200 (MessageRoutes.BUpdated (Some (with_read m))),
         db'') ∧
    MessageRoutes.get_unread_messages
      (MessageRoutes.mkRequest (Some r) (msg_id m)) db''
      = MessageRoutes.mkResponse 200 (MessageRoutes.BList unread') ∧
    (∀ m', m' ∈ unread' ↔ m' ∈ unread ∧ m' ≠ m).
Proof.
  intros Hfresh Hme Ht Htr Hs Hc.
  assert (DatabaseStorage.createMessage (chat_data o) now (storage_state sv)
          = (Ok m, db')) as Hc' by exact Hc.
  destruct (db_createMessage_ok _ _ _ _ _ Hc')
    as (Hrows & _ & Hread & _ & _ & Hrecv & _ & _ & r & Hr).
  simpl in Hr. simpl in Hrecv. rewrite Hr in Hrecv.
  destruct (db_createMessage_reachable _ _ _ _ _ Hc') as [_ Hreach].
  destruct (db_createMessage_found _ _ _ _ _ Hfresh Hc') as (_ & Hfound & Hfilter).
  pose proof (db_createMessage_fresh (chat_data o) now _ Hfresh) as Hfresh'.
  rewrite Hc' in Hfresh'. cbn [snd] in Hfresh'.
  destruct (DatabaseStorage.getUnreadMessagesByUserId r db') as [unread|] eqn:Hunread.
  2:{ revert Hunread.
      unfold DatabaseStorage.getUnreadMessagesByUserId, Db.select_messages.
      by rewrite Hreach. }
  destruct (DatabaseStorage.getUnreadMessagesByUserId r
              (DatabaseStorage.markMessageAsRead (msg_id m) db').2)
    as [unread'|] eqn:Hunread'.
  2:{ revert Hunread'.
      unfold DatabaseStorage.getUnreadMessagesByUserId, Db.select_messages,
        DatabaseStorage.markMessageAsRead, Db.update_messages.
      by rewrite Hreach. }
  assert (m ∈ unread) as Hin.
  { apply (db_unread_elem _ _ _ _ Hunread). rewrite Hrows.
    split; [|done]. apply elem_of_app. right. apply list_elem_of_here. }
  assert (DatabaseStorage.markMessageAsRead (msg_id m) db'
          = (Ok (Some (with_read m)),
             (DatabaseStorage.markMessageAsRead (msg_id m) db').2)) as Hmark.
  { unfold DatabaseStorage.markMessageAsRead, Db.update_messages.
    by rewrite Hreach, Hfilter. }
  exists r, unread, (DatabaseStorage.markMessageAsRead (msg_id m) db').2, unread'.
  split_and!.
  - done.
  - erewrite step_receive_same; [reflexivity|done|].
    rewrite (on_message_chat_ok _ _ _ _ m db'); [done|done| |done].
    unfold sender_matches. cbn [clientId]. rewrite Htr, Hs.
    by rewrite bool_decide_true.
  - unfold MessageRoutes.get_unread_messages. cbn. by rewrite Hunread.
  - done.
  - intros other Hother. unfold MessageRoutes.patch_message_read. cbn.
    rewrite Hfound, Hrecv. rewrite bool_decide_true; [done|]. congruence.
  - unfold MessageRoutes.patch_message_read. cbn.
    rewrite Hfound, Hrecv. rewrite bool_decide_false by (by intros []).
    by rewrite Hmark.
  - unfold MessageRoutes.get_unread_messages. cbn. by rewrite Hunread'.
  - intros m'. rewrite (db_unread_after_mark _ _ _ _ _ _ Hunread Hunread').
    split; intros [Hm' Hne]; (split; [done|]).
    + congruence.
    + intros Hid. apply Hne.
      destruct Hfresh' as (_ & _ & Hnodup & _).
      apply (key_determines_row msg_id (Db.messages db')); [done| |by rewrite Hrows; set_solver|done].
      by apply (db_unread_elem _ _ _ _ Hunread) in Hm' as [? _].
Qed.

End StoreAndForward.

(** ** The further properties at work on the scenarios *)

(** User 10 on connection 1 identifies again, as user 12. *)
Lemma reidentify_moves_registration_witness :
  ∃ sv',
    Relay.step (Relay.Receive 1 (Text (Value Scenario.identify_12)) 7)
      Scenario.two_users = (sv', [(1, identified_ack)]) ∧
    Relay.connections sv' !! 1 = Some "12"%string ∧
    Relay.registry sv' !! "12"%string = Some 1 ∧
    Relay.registry sv' !! "10"%string = None ∧
    Relay.registry sv' !! "11"%string = Some 2.
Proof.
  destruct (reidentify_moves_registration Scenario.two_users 1 "10"%string
              Scenario.identify_12 7%Z "12"%string)
    as (sv' & Hstep & Hconn & Hnew & Hold & Hothers & _);
    [reflexivity | discriminate | reflexivity | reflexivity | reflexivity |].
  exists sv'. split_and!; [exact Hstep | exact Hconn | exact Hnew | |].
  - apply Hold. discriminate.
  - rewrite Hothers; [reflexivity | discriminate | discriminate].
Defined.

(** Connection 3 opens and is welcomed; connection 1 closes in silence;
    the push of the message that user 10 sends to user 11. *)
Lemma frames_go_to_sender_or_registered_receiver_witness :
  (Relay.step (Relay.Connect 3) Scenario.two_users).2 = [(3, Relay.welcome)] ∧
  (Relay.step (Relay.Close 1) Scenario.two_users).2 = [] ∧
  (2 = 1 ∨
   ∃ o m key,
     Text (Value Scenario.hi) = Text (Value o) ∧ Frame.type o = JStr "chat" ∧
     Push Scenario.hi_message = Push m ∧
     toString (Frame.receiverId o) = Some key ∧
     Relay.registry Scenario.two_users !! key = Some 2).
Proof.
  split_and!.
  - exact (proj1 (frames_go_to_sender_or_registered_receiver Scenario.two_users 3)).
  - exact (proj1 (proj2
             (frames_go_to_sender_or_registered_receiver Scenario.two_users 1))).
  - apply (proj2 (proj2
             (frames_go_to_sender_or_registered_receiver Scenario.two_users 1))
             (Text (Value Scenario.hi)) 9%Z 2 (Push Scenario.hi_message)).
    change ((2, Push Scenario.hi_message)
            ∈ [(1, sent_ack Scenario.hi_message); (2, Push Scenario.hi_message)]).
    apply list_elem_of_further, list_elem_of_here.
Defined.

(** The forged message of user 10 is answered. *)
Lemma chat_frame_is_answered_witness :
  ∃ f rest,
    (Relay.step (Relay.Receive 1 (Text (Value Scenario.forged)) 9)
       Scenario.two_users).2 = (1, f) :: rest ∧
    (f = identity_error ∨ f = process_error ∨ ∃ m, f = sent_ack m).
Proof.
  apply (chat_frame_is_answered Scenario.two_users 1 "10"%string Scenario.forged 9%Z);
    reflexivity.
Defined.

(** A chat frame leaves the identities and the registry alone. *)
Lemma other_frames_keep_the_registry_witness :
  Relay.connections
    (Relay.step (Relay.Receive 1 (Text (Value Scenario.hi)) 9) Scenario.two_users).1
    = Relay.connections Scenario.two_users ∧
  Relay.registry
    (Relay.step (Relay.Receive 1 (Text (Value Scenario.hi)) 9) Scenario.two_users).1
    = Relay.registry Scenario.two_users.
Proof.
  apply (other_frames_keep_the_registry Scenario.two_users 1
           (Text (Value Scenario.hi)) 9%Z).
  intros o [= <-]. discriminate.
Defined.

Lemma two_identified_ok :
  Wellformed.trace_ok Scenario.two_identified (Relay.start DatabaseStorage.new).
Proof.
  cbn [Wellformed.trace_ok Scenario.two_identified].
  split_and!; [reflexivity | | reflexivity | | exact I]; intros _; discriminate.
Qed.

(** The handle registered for user 11 is the open connection of
    user 11. *)
Lemma registry_holds_open_connections_witness :
  Relay.connections
    (Relay.run Scenario.two_identified (Relay.start DatabaseStorage.new)).1 !! 2
  = Some "11"%string.
Proof.
  apply (registry_holds_open_connections DatabaseStorage.new Scenario.two_identified
           two_identified_ok "11"%string 2).
  reflexivity.
Defined.

(** The push of the message for user 11 goes to the connection of
    user 11. *)
Lemma pushes_reach_open_connections_witness :
  ∃ key,
    toString (Frame.receiverId Scenario.hi) = Some key ∧
    Relay.connections
      (Relay.run Scenario.two_identified (Relay.start DatabaseStorage.new)).1 !! 2
      = Some key.
Proof.
  apply (pushes_reach_open_connections DatabaseStorage.new Scenario.two_identified
           1 "10"%string Scenario.hi 9%Z 2 Scenario.hi_message);
    [exact two_identified_ok | reflexivity |].
  change ((2, Push Scenario.hi_message)
          ∈ [(1, sent_ack Scenario.hi_message); (2, Push Scenario.hi_message)]).
  apply list_elem_of_further, list_elem_of_here.
Defined.

(** Marking the message 1 as read in both stores, and a message that
    does not exist. *)
Lemma markMessageAsRead_sets_read_only_witness :
  (∃ m' this',
     MemStorage.markMessageAsRead 1 Scenario.hi_stored_mem = (Some m', this') ∧
     marked_read Scenario.hi_message m') ∧
  (∃ m' this',
     DatabaseStorage.markMessageAsRead 1 Scenario.hi_stored = (Ok (Some m'), this') ∧
     marked_read Scenario.hi_message m') ∧
  MemStorage.markMessageAsRead 2 Scenario.hi_stored_mem
    = (None, Scenario.hi_stored_mem) ∧
  DatabaseStorage.markMessageAsRead 2 Scenario.hi_stored
    = (Ok None, Scenario.hi_stored).
Proof.
  destruct (markMessageAsRead_sets_read_only 1) as (Hmem & _ & Hdb & _).
  destruct (markMessageAsRead_sets_read_only 2) as (_ & Hmem_absent & _ & Hdb_absent).
  split_and!.
  - destruct (Hmem Scenario.hi_stored_mem Scenario.hi_message)
      as (m' & this' & Hmark & Hread & _); [reflexivity|]. by exists m', this'.
  - destruct (Hdb Scenario.hi_stored Scenario.hi_message)
      as (m' & this' & Hmark & Hread & _); [reflexivity|]. by exists m', this'.
  - apply Hmem_absent. reflexivity.
  - apply Hdb_absent. reflexivity.
Defined.

(** The store in memory after the first exchange was created. *)
Lemma MemStorage_keeps_its_identifiers_witness :
  MemStorage.counters_fresh Scenario.requested_mem ∧
  MemStorage.ids_are_keys Scenario.requested_mem.
Proof.
  destruct MemStorage_keeps_its_identifiers as [[Hfresh Hkeys] Hstep].
  destruct (Hstep MemStorage.new Hfresh Hkeys) as (Hcreate & _).
  exact (Hcreate (mkInsertExchange 3 2 1 2) 10%Z).
Defined.

(** The database after the first exchange was created. *)
Lemma DatabaseStorage_keeps_its_keys_witness : Db.keys_fresh Scenario.requested.
Proof.
  destruct DatabaseStorage_keeps_its_keys as [Hfresh Hstep].
  destruct (Hstep DatabaseStorage.new Hfresh) as (Hcreate & _).
  exact (Hcreate (mkInsertExchange 3 2 1 2) 10%Z).
Defined.

(** The first message, read back from both stores. *)
Lemma createMessage_then_getMessageById_witness :
  MemStorage.getMessageById 1 Scenario.hi_stored_mem = Some Scenario.hi_message ∧
  DatabaseStorage.getMessageById 1 DatabaseStorage.new = Ok None ∧
  DatabaseStorage.getMessageById 1 Scenario.hi_stored = Ok (Some Scenario.hi_message).
Proof.
  destruct (createMessage_then_getMessageById (chat_data Scenario.hi) 9)
    as [Hmem Hdb].
  destruct (Hmem MemStorage.new mem_new_fresh) as (_ & Hback & _).
  destruct (Hdb DatabaseStorage.new Scenario.hi_message Scenario.hi_stored
              db_empty_fresh eq_refl) as (Hfree & Hfound & _).
  split_and!; [exact Hback | exact Hfree | exact Hfound].
Defined.

(** The first exchange, read back from both stores. *)
Lemma createExchange_then_getExchangeById_witness :
  (∃ e this',
     MemStorage.createExchange (mkInsertExchange 3 2 1 2) 10 MemStorage.new
       = (e, this') ∧
     status e = "pending"%string ∧
     MemStorage.getExchangeById (ex_id e) this' = Some e) ∧
  DatabaseStorage.getExchangeById 1 Scenario.requested
    = Ok (Some (Scenario.pending_exchange None)).
Proof.
  destruct (createExchange_then_getExchangeById (mkInsertExchange 3 2 1 2) 10)
    as [Hmem Hdb].
  split.
  - destruct (Hmem MemStorage.new mem_new_fresh)
      as (e & this' & Hcreate & Hstatus & _ & _ & _ & _ & _ & Hback & _).
    by exists e, this'.
  - destruct (Hdb DatabaseStorage.new (Scenario.pending_exchange None)
                Scenario.requested db_empty_fresh eq_refl)
      as (_ & _ & _ & _ & _ & _ & Hback & _).
    exact Hback.
Defined.

(** The messages of the exchange 1, and a database out of reach. *)
Lemma getMessagesByExchangeId_sorted_and_exact_witness :
  (∃ l,
     DatabaseStorage.getMessagesByExchangeId 1 Scenario.talked = Ok l ∧
     sorted_by createdAt l ∧
     l ≡ₚ filter (λ m, exchangeId m = JNum 1) (Db.messages Scenario.talked)) ∧
  DatabaseStorage.getMessagesByExchangeId 1 Scenario.db_down = Throw.
Proof.
  destruct (getMessagesByExchangeId_sorted_and_exact 1) as (_ & Hup & Hdown).
  split; [apply Hup|apply Hdown]; reflexivity.
Defined.

(** The conversation of the users 10 and 11. *)
Lemma getMessagesBetweenUsers_symmetric_witness :
  (senderId Scenario.again_message = JNum 11
   ∧ receiverId Scenario.again_message = JNum 10) ∨
  (senderId Scenario.again_message = JNum 10
   ∧ receiverId Scenario.again_message = JNum 11).
Proof.
  destruct (getMessagesBetweenUsers_symmetric 11 10) as [_ Hdb].
  destruct (Hdb Scenario.talked) as [_ Hfrom].
  apply (Hfrom [Scenario.hi_message; Scenario.again_message]); [reflexivity|].
  apply list_elem_of_further, list_elem_of_here.
Defined.

(** Once the first message is marked as read, the second is still
    unread. *)
Lemma marked_message_leaves_unread_witness :
  Scenario.again_message
    ∈ MemStorage.getUnreadMessagesByUserId 11
        (MemStorage.markMessageAsRead 1 Scenario.talked_mem).2 ∧
  (Scenario.hi_message ∈ [Scenario.again_message]
   ↔ Scenario.hi_message ∈ [Scenario.hi_message; Scenario.again_message]
     ∧ msg_id Scenario.hi_message ≠ 1%Z).
Proof.
  destruct (marked_message_leaves_unread 1 11) as [Hmem Hdb].
  split.
  - apply (Hmem Scenario.talked_mem Scenario.hi_message Scenario.again_message).
    + apply mem_createMessage_keys, mem_createMessage_keys, mem_new_keys.
    + reflexivity.
    + split; [|discriminate]. apply mem_unread_elem.
      split; [by exists 2%Z|done].
  - apply (Hdb Scenario.talked); reflexivity.
Defined.

(** The first exchange is listed for its requester and its provider. *)
Lemma new_exchange_is_listed_for_its_participants_witness :
  Scenario.pending_exchange (Some 10%Z)
    ∈ MemStorage.getExchangesByUserId 2 Scenario.requested_mem ∧
  ∃ l',
    DatabaseStorage.getExchangesByUserId 3 Scenario.requested = Ok l' ∧
    l' ≡ₚ [Scenario.pending_exchange None].
Proof.
  split.
  - destruct (new_exchange_is_listed_for_its_participants
                (mkInsertExchange 3 2 1 2) 10 2) as [Hmem _].
    apply (Hmem MemStorage.new); [apply mem_new_fresh|].
    right. split; [reflexivity|by right].
  - destruct (new_exchange_is_listed_for_its_participants
                (mkInsertExchange 3 2 1 2) 10 3) as [_ Hdb].
    destruct (Hdb DatabaseStorage.new (Scenario.pending_exchange None)
                Scenario.requested [] eq_refl eq_refl) as (l' & Hl' & Hperm).
    exists l'. by split.
Defined.

(** The first exchange, accepted, is listed as accepted and no longer as
    pending. *)
Lemma updated_exchange_moves_between_statuses_witness :
  with_status (Scenario.pending_exchange (Some 10%Z)) "accepted" 20
    ∈ MemStorage.getExchangesByStatus "accepted"
        (MemStorage.updateExchangeStatus 1 "accepted" 20 Scenario.requested_mem).2 ∧
  (Scenario.pending_exchange None ∈ []
   ↔ (Scenario.pending_exchange None ∈ [Scenario.pending_exchange None]
      ∧ ex_id (Scenario.pending_exchange None) ≠ 1%Z)
     ∨ (∃ row, row ∈ Db.exchanges Scenario.requested ∧ ex_id row = 1%Z
               ∧ Scenario.pending_exchange None = with_status row "accepted" 20
               ∧ "accepted"%string = "pending"%string)).
Proof.
  split.
  - destruct (updated_exchange_moves_between_statuses 1 "accepted" 20 "accepted")
      as [Hmem _].
    apply (Hmem Scenario.requested_mem (Scenario.pending_exchange (Some 10%Z)));
      [apply mem_createExchange_keys, mem_new_keys | reflexivity |].
    by right.
  - destruct (updated_exchange_moves_between_statuses 1 "accepted" 20 "pending")
      as [_ Hdb].
    apply (Hdb Scenario.requested); reflexivity.
Defined.

(** The sender of the first message may not mark it as read; its
    receiver may. *)
Lemma only_the_receiver_marks_as_read_witness :
  MessageRoutes.patch_message_read (MessageRoutes.mkRequest (Some 10%Z) 1)
    Scenario.hi_stored
  = (MessageRoutes.mkResponse 403
       (MessageRoutes.BMessage "Only the receiver can mark message as read"),
     Scenario.hi_stored) ∧
  MessageRoutes.patch_message_read (MessageRoutes.mkRequest (Some 11%Z) 1)
    Scenario.hi_stored
  = (MessageRoutes.mkResponse 200
       (MessageRoutes.BUpdated (Some (with_read Scenario.hi_message))),
     Db.mk [] 1 [with_read Scenario.hi_message] 2 true).
Proof.
  split.
  - destruct (only_the_receiver_marks_as_read
                (MessageRoutes.mkRequest (Some 10%Z) 1) Scenario.hi_stored)
      as (_ & _ & Hother & _).
    apply (Hother 10%Z Scenario.hi_message); [reflexivity | reflexivity | discriminate].
  - destruct (only_the_receiver_marks_as_read
                (MessageRoutes.mkRequest (Some 11%Z) 1) Scenario.hi_stored)
      as (_ & _ & _ & Hreceiver).
    exact (Hreceiver 11%Z Scenario.hi_message eq_refl eq_refl eq_refl).
Defined.

(** No session; an exchange that does not exist; a database out of
    reach. *)
Lemma status_route_checks_in_order_witness :
  Routes.patch_exchange_status (Routes.mkRequest None 1 (JStr "accepted")) 20
    Scenario.requested
  = (Routes.mkResponse 401 (Routes.BMessage "Unauthorized"), Scenario.requested) ∧
  Routes.patch_exchange_status (Routes.mkRequest (Some 2%Z) 5 (JStr "cancelled")) 20
    Scenario.requested
  = (Routes.mkResponse 404 (Routes.BMessage "Exchange not found"),
     Scenario.requested) ∧
  Routes.patch_exchange_status Scenario.accept_again 20 Scenario.db_down
  = (Routes.mkResponse 400 (Routes.BFailure "Failed to update exchange status"),
     Scenario.db_down).
Proof.
  split_and!.
  - destruct (status_route_checks_in_order
                (Routes.mkRequest None 1 (JStr "accepted")) 20 Scenario.requested)
      as (Hanonymous & _).
    apply Hanonymous. reflexivity.
  - destruct (status_route_checks_in_order
                (Routes.mkRequest (Some 2%Z) 5 (JStr "cancelled")) 20
                Scenario.requested) as (_ & Hmissing & _).
    apply (Hmissing 2%Z); reflexivity.
  - destruct (status_route_checks_in_order Scenario.accept_again 20
                Scenario.db_down) as (_ & _ & Hdown).
    apply (Hdown 2%Z); reflexivity.
Defined.

(** User 7 sets the completed exchange of the users 3 and 2 back to
    pending. *)
Lemma anyone_may_request_pending_witness :
  Routes.patch_exchange_status Scenario.reopen_by_stranger 40 Scenario.completed
    = Transition.applied
        (updateExchangeStatus 1 "pending" 40 Scenario.completed) ∧
  ∃ this',
    Routes.patch_exchange_status Scenario.reopen_by_stranger 40
      Scenario.completed_mem
    = (Routes.mkResponse 200
         (Routes.BExchange
            (Some (mkExchange 1 3 2 1 2 "pending" (Some 10%Z) (Some 40%Z)))),
       this') ∧
    MemStorage.getExchangeById 1 this'
    = Some (mkExchange 1 3 2 1 2 "pending" (Some 10%Z) (Some 40%Z)).
Proof.
  destruct anyone_may_request_pending as [Hany Hmem].
  split.
  - apply (Hany DatabaseStorage.t _ Scenario.reopen_by_stranger 40%Z
             Scenario.completed 7%Z
             (mkExchange 1 3 2 1 2 "completed" (Some 10%Z) (Some 30%Z)));
      reflexivity.
  - apply (Hmem Scenario.completed_mem Scenario.reopen_by_stranger 40%Z 7%Z
             (mkExchange 1 3 2 1 2 "completed" (Some 10%Z) (Some 30%Z)));
      reflexivity.
Defined.

(** The message of user 10 waits for user 11. *)
Lemma stored_message_waits_for_its_receiver_witness :
  ∃ r unread db'' unread',
    Frame.receiverId Scenario.hi = JNum r ∧
    Relay.storage_state
      (Relay.step (Relay.Receive 1 (Text (Value Scenario.hi)) 9)
         Scenario.two_users).1 = Scenario.hi_stored ∧
    MessageRoutes.get_unread_messages
      (MessageRoutes.mkRequest (Some r) (msg_id Scenario.hi_message))
      Scenario.hi_stored
      = MessageRoutes.mkResponse 200 (MessageRoutes.BList unread) ∧
    Scenario.hi_message ∈ unread ∧
    (∀ other,
       other ≠ r →
       MessageRoutes.patch_message_read
         (MessageRoutes.mkRequest (Some other) (msg_id Scenario.hi_message))
         Scenario.hi_stored
       = (MessageRoutes.mkResponse 403
            (MessageRoutes.BMessage "Only the receiver can mark message as read"),
          Scenario.hi_stored)) ∧
    MessageRoutes.patch_message_read
      (MessageRoutes.mkRequest (Some r) (msg_id Scenario.hi_message))
      Scenario.hi_stored
      = (MessageRoutes.mkResponse 200
           (MessageRoutes.BUpdated (Some (with_read Scenario.hi_message))),
         db'') ∧
    MessageRoutes.get_unread_messages
      (MessageRoutes.mkRequest (Some r) (msg_id Scenario.hi_message)) db''
      = MessageRoutes.mkResponse 200 (MessageRoutes.BList unread') ∧
    (∀ m', m' ∈ unread' ↔ m' ∈ unread ∧ m' ≠ Scenario.hi_message).
Proof.
  apply (stored_message_waits_for_its_receiver Scenario.two_users 1 "10"%string
           Scenario.hi 9%Z Scenario.hi_message Scenario.hi_stored);
    [exact db_empty_fresh | reflexivity | reflexivity | reflexivity | reflexivity
    | reflexivity].
Defined.
